(** * Verification of the solar_forecast_ml forecast engine

    Shallow embedding of the simulation and scheduling core of the
    [solar_forecast_ml] Home Assistant integration:
    - [forecast_battery.forecast_battery_capacity] (battery simulator),
    - [forecast_grid.forecast_grid] (grid exchange simulator),
    - [forecast_data.ForecastData.aggregate_by_interval],
    - the prediction loop of [ForecastCoordinator._async_update_data].

    Python floats are modelled as rationals in canonical form ([Qc]), so
    that equality of values is Leibniz equality.  Binary64 rounding ([fl])
    is modelled in the percent/energy conversions of the battery simulator
    and in the daily summaries; the other float operations are modelled
    exactly.  Timestamps are wall-clock seconds since 1970-01-01 00:00
    ([Z]) in the configured time zone (microseconds in
    [Schedule.get_prediction_window]); [dt.replace(minute=0, second=0, microsecond=0)]
    is the floor to a multiple of 3600.  Python dicts are stdpp [gmap]s. *)

From Stdlib Require Import QArith Qcanon Qround ZArith Lqa.
From stdpp Require Import base gmap strings list fin_maps.

Open Scope Z_scope.

(** ** Numbers *)

(** A float literal. *)
Definition qc (z : Z) : Qc := Q2Qc (inject_Z z).

Definition Qc_ltb (a b : Qc) : bool := if Qclt_le_dec a b then true else false.
Definition Qc_leb (a b : Qc) : bool := negb (Qc_ltb b a).
Definition Qc_eqb (a b : Qc) : bool := if Qc_eq_dec a b then true else false.

(** Python's builtin [min(a, b)]: the first argument unless the second is
    strictly smaller. *)
Definition py_min (a b : Qc) : Qc := if Qc_ltb b a then b else a.
(** Python's builtin [max(a, b)]: the first argument unless the second is
    strictly greater. *)
Definition py_max (a b : Qc) : Qc := if Qc_ltb a b then b else a.

(** Python's float division [a / b]: raises [ZeroDivisionError] (here
    [None]) when [b == 0.0]. *)
Definition py_div (a b : Qc) : option Qc :=
  if Qc_eqb b 0%Qc then None else Some (a / b)%Qc.

(** ** Binary64 rounding *)

(** [b64 q]: the binary64 (IEEE 754 double) value nearest to [q], ties to
    even, which is the rounding of every Python float operation, over the
    normal and subnormal range (results beyond the largest finite double,
    Python's [inf], are not modelled).  [e] is [floor (log2 |q|)] and [k]
    the exponent of the unit in the last place: 53 significant bits, and
    no unit below [2 ^ -1074]. *)
Definition b64 (q : Q) : Q :=
  let n := Z.abs (Qnum q) in
  let d := Zpos (Qden q) in
  if Z.eqb n 0 then 0%Q else
  let e0 := Z.log2 n - Z.log2 d in
  let e := if Z.leb 0 e0
           then (if Z.leb (d * 2 ^ e0) n then e0 else e0 - 1)
           else (if Z.leb d (n * 2 ^ (- e0)) then e0 else e0 - 1) in
  let k := Z.max (e - 52) (-1074) in
  let num := if Z.leb 0 k then n else n * 2 ^ (- k) in
  let den := if Z.leb 0 k then d * 2 ^ k else d in
  let qt := num / den in
  let r := num mod den in
  let m := match Z.compare (2 * r) den with
           | Lt => qt
           | Gt => qt + 1
           | Eq => if Z.even qt then qt else qt + 1
           end in
  let sm := if Z.ltb (Qnum q) 0 then - m else m in
  if Z.leb 0 k then inject_Z (sm * 2 ^ k) else (sm # Z.to_pos (2 ^ (- k)))%Q.

(** The rounding of an exact result to the float Python computes. *)
Definition fl (x : Qc) : Qc := Q2Qc (b64 (this x)).

(** The float literal [m]e-[k], as Python parses it. *)
Definition float_lit (m : Z) (k : nat) : Qc := fl (Q2Qc (m # Z.to_pos (10 ^ Z.of_nat k))).

(** Python's float division [a / b] with its rounding. *)
Definition py_fdiv (a b : Qc) : option Qc :=
  if Qc_eqb b 0%Qc then None else Some (fl (a / b))%Qc.

(** Python's [sum(values)] over floats: left to right, each addition
    rounded. *)
Definition fsum (vs : list Qc) : Qc := fold_left (fun acc v => fl (acc + v)%Qc) vs 0%Qc.

(** [t.replace(minute=0, second=0, microsecond=0)] *)
Definition floor_hour (t : Z) : Z := t - t mod 3600.

(** ** Hourly inputs shared by the battery and the grid simulators *)

(** A parsed consumption forecast entry
    [{"time": ..., "min": ..., "med": ..., "max": ...}]. *)
Record cons_rec := ConsRec { c_min : Qc; c_med : Qc; c_max : Qc }.

(** Solar aggregation loop: [solar_by_hour.setdefault(hour, []).append(power)]
    over the (already parsed) 15-minute entries [(time, power)]. *)
Definition solar_by_hour (entries : list (Z * Qc)) : gmap Z (list Qc) :=
  fold_left (fun acc e =>
    let h := floor_hour e.1 in
    match acc !! h with
    | Some vs => <[h := vs ++ [e.2]]> acc
    | None => <[h := [e.2]]> acc
    end) entries ∅.

(** [sum(values) / len(values)]; every list in [solar_by_hour] is non-empty. *)
Definition average (vs : list Qc) : Qc :=
  (fold_left Qcplus vs 0%Qc / Q2Qc (inject_Z (Z.of_nat (length vs))))%Qc.

(** [solar_hourly[hour] = sum(values) / len(values)] *)
Definition solar_hourly (entries : list (Z * Qc)) : gmap Z Qc :=
  average <$> solar_by_hour entries.

(** [cons_by_hour[hour] = {...}]: later entries of the same hour win. *)
Definition cons_by_hour (entries : list (Z * cons_rec)) : gmap Z cons_rec :=
  fold_left (fun acc e => <[floor_hour e.1 := e.2]> acc) entries ∅.

(** [solar_hourly.get(sim_time, 0.0)] *)
Definition solar_at (sh : gmap Z Qc) (t : Z) : Qc :=
  match sh !! t with Some p => p | None => 0%Qc end.

(** [cons_by_hour.get(sim_time, {"min": 0.0, "med": 0.0, "max": 0.0})] *)
Definition cons_at (cb : gmap Z cons_rec) (t : Z) : cons_rec :=
  match cb !! t with Some c => c | None => ConsRec 0 0 0 end.

(** Simulation window: from the next full hour (or now, when now is on the
    hour) for [days * 24] hours. *)
Definition start_sim (now : Z) : Z :=
  let current_hour := floor_hour now in
  if Z.eqb now current_hour then current_hour else current_hour + 3600.

Definition end_sim (now days : Z) : Z := start_sim now + days * 24 * 3600.

(** Number of iterations bounding the [while sim_time < end_sim] loops. *)
Definition sim_fuel (days : Z) : nat := Z.to_nat (days * 24).

(** ** Names of [const.py] *)

Module Const.

(** The module attributes that [const.py] defines. *)
Definition names : list string :=
  ["DOMAIN"; "NAME"; "CONF_PV_POWER_ENTITY"; "CONF_POWER_CONSUMPTION_ENTITY";
   "CONF_BATT_CAPACITY_ENTITY"; "CONF_BATT_MAX_ENERGY_ENTITY";
   "CONF_BATT_MIN_SOC_ENTITY"; "CONF_BATT_MAX_SOC_ENTITY"; "CONF_BATT_MAX_POWER";
   "CONF_TIMEZONE"; "FORECAST_DATA_PV_POWER"; "FORECAST_DATA_POWER_CONSUMPTION";
   "FORECAST_DATA_BATTERY"; "FORECAST_DATA_GRID"; "COORDINATOR"].

(** Whether [const.name] can be read; reading any other attribute of the
    module raises [AttributeError]. *)
Definition has_attr (name : string) : bool := bool_decide (name ∈ names).

End Const.

(** ** Battery simulator ([forecast_battery.py]) *)

Module Battery.

(** The carried state: [current_energy_min], [_med], [_max] in Wh. *)
Record sim_state := SimState { e_min : Qc; e_med : Qc; e_max : Qc }.

(** Configuration values read from Home Assistant states. *)
Record batt_config := BattConfig {
  current_capacity : Qc;  (** battery capacity sensor, in % *)
  max_energy : Qc;        (** battery maximum energy sensor, in Wh *)
  min_soc : Qc;           (** minimum SOC sensor, in % *)
  max_soc : Qc            (** maximum SOC sensor, in % *)
}.

Definition batt_min_energy (cfg : batt_config) : Qc :=
  (max_energy cfg * (min_soc cfg / qc 100))%Qc.
Definition batt_max_energy (cfg : batt_config) : Qc :=
  (max_energy cfg * (max_soc cfg / qc 100))%Qc.

(** [current_capacity / 100.0 * max_energy], for all three scenarios,
    with the rounding of both float operations. *)
Definition initial_energy (cfg : batt_config) : Qc :=
  fl (fl (current_capacity cfg / qc 100) * max_energy cfg)%Qc.

Definition initial_state (cfg : batt_config) : sim_state :=
  let e := initial_energy cfg in SimState e e e.

(** [max(batt_min_energy, min(batt_max_energy, current + net))] *)
Definition clamp (lo hi x : Qc) : Qc := py_max lo (py_min hi x).

(** Body of the simulation loop, energy part: the net energies pair the
    "min" scenario with the maximal consumption and the "max" scenario with
    the minimal one. *)
Definition battery_step (cfg : batt_config) (solar_power : Qc)
    (consumption : cons_rec) (st : sim_state) : sim_state :=
  let net_energy_min := (solar_power - c_max consumption)%Qc in
  let net_energy_med := (solar_power - c_med consumption)%Qc in
  let net_energy_max := (solar_power - c_min consumption)%Qc in
  let lo := batt_min_energy cfg in
  let hi := batt_max_energy cfg in
  SimState (clamp lo hi (e_min st + net_energy_min)%Qc)
           (clamp lo hi (e_med st + net_energy_med)%Qc)
           (clamp lo hi (e_max st + net_energy_max)%Qc).

(** The [while sim_time < end_sim] loop; returns, for each simulated hour,
    the hour and the state carried after it. *)
Fixpoint sim_loop (cfg : batt_config) (sh : gmap Z Qc) (cb : gmap Z cons_rec)
    (fuel : nat) (sim_time end_t : Z) (st : sim_state) : list (Z * sim_state) :=
  match fuel with
  | O => []
  | S f =>
      if Z.ltb sim_time end_t then
        let st' := battery_step cfg (solar_at sh sim_time) (cons_at cb sim_time) st in
        (sim_time, st') :: sim_loop cfg sh cb f (sim_time + 3600) end_t st'
      else []
  end.

(** An output record [{"time", "min", "med", "max"}] (capacities in %). *)
Record out_point := OutPoint { o_time : Z; o_min : Qc; o_med : Qc; o_max : Qc }.

(** [cap = new_energy / max_energy * 100.0] for the three scenarios, with
    the rounding of both float operations. *)
Definition to_point (cfg : batt_config) (ts : Z * sim_state) : option out_point :=
  cmin ← py_fdiv (e_min ts.2) (max_energy cfg);
  cmed ← py_fdiv (e_med ts.2) (max_energy cfg);
  cmax ← py_fdiv (e_max ts.2) (max_energy cfg);
  Some (OutPoint ts.1 (fl (cmin * qc 100)) (fl (cmed * qc 100)) (fl (cmax * qc 100)))%Qc.

(** [datetime.min] and [datetime.max] (whole seconds), in wall-clock
    seconds since 1970-01-01 00:00. *)
Definition DATETIME_MIN : Z := -62135596800.
Definition DATETIME_MAX : Z := 253402300799.

Definition in_datetime_range (t : Z) : bool :=
  Z.leb DATETIME_MIN t && Z.leb t DATETIME_MAX.

(** Lines 72-181 of [forecast_battery_capacity(hass, days)], run on the
    values read before them: the head record at [now] carries the measured
    capacity, followed by one record per simulated hour.  [None] is the
    [OverflowError] raised at line 118 or 120 when [start_sim] or [end_sim]
    leaves the range of [datetime] or [days] days exceed the range of
    [timedelta], or the [ZeroDivisionError] raised at line 159 when the
    maximum energy is [0.0]. *)
Definition simulate_battery (cfg : batt_config)
    (solar_forecast : list (Z * Qc)) (cons_forecast : list (Z * cons_rec))
    (now days : Z) : option (list out_point) :=
  if negb (in_datetime_range (start_sim now) && Z.leb (Z.abs days) 999999999 &&
           in_datetime_range (end_sim now days))
  then None
  else
    let sh := solar_hourly solar_forecast in
    let cb := cons_by_hour cons_forecast in
    let head := OutPoint now (current_capacity cfg) (current_capacity cfg)
                  (current_capacity cfg) in
    pts ← mapM (to_point cfg)
            (sim_loop cfg sh cb (sim_fuel days) (start_sim now) (end_sim now days)
               (initial_state cfg));
    Some (head :: pts).

(** [forecast_battery_capacity(hass, days)]: [cfg] holds the four states
    read at lines 49-63; line 67 then reads [const.SENSOR_PV_POWER_FORECAST]
    and line 91 [const.SENSOR_POWER_CONSUMPTION], each raising
    [AttributeError] ([None]) when [const.py] does not define it; the two
    sensors' forecasts are [solar_forecast] and [cons_forecast]. *)
Definition forecast_battery_capacity (cfg : batt_config)
    (solar_forecast : list (Z * Qc)) (cons_forecast : list (Z * cons_rec))
    (now days : Z) : option (list out_point) :=
  if negb (Const.has_attr "SENSOR_PV_POWER_FORECAST") then None
  else if negb (Const.has_attr "SENSOR_POWER_CONSUMPTION") then None
  else simulate_battery cfg solar_forecast cons_forecast now days.

End Battery.

(** ** Grid exchange simulator ([forecast_grid.py]) *)

Module Grid.

(** A battery forecast entry [{"time", "min", "med", "max"}] (capacity in
    %), as produced by the battery simulator. *)
Record batt_rec := BattRec { b_min : Qc; b_med : Qc; b_max : Qc }.

(** [batt_by_hour[t_hour] = entry]: later entries of the same hour win. *)
Definition batt_by_hour (entries : list (Z * batt_rec)) : gmap Z batt_rec :=
  fold_left (fun acc e => <[floor_hour e.1 := e.2]> acc) entries ∅.

(** [try: sensor.get_forecast() except Exception: []]; [None] is a raising
    sensor. *)
Definition forecast_or_empty {A} (f : option (list A)) : list A :=
  match f with Some l => l | None => [] end.

(** [try: float(state) except Exception: default] for the SOC thresholds;
    [None] is an unreadable state. *)
Definition threshold (raw : option Qc) (default : Qc) : Qc :=
  match raw with Some v => v | None => default end.

(** An output record [{"time", "min", "med", "max"}]. *)
Record grid_point := GridPoint { g_time : Z; g_min : Qc; g_med : Qc; g_max : Qc }.

(** Body of the simulation loop for one hour.  [batt] is
    [batt_by_hour.get(sim_time, {"min": None, "med": None, "max": None})]:
    [None] stands for the default record whose three fields are [None]. *)
Definition grid_hour (batt_min_threshold batt_max_threshold : Qc)
    (solar_power : Qc) (cons : cons_rec) (batt : option batt_rec) : Qc * Qc * Qc :=
  let grid_min :=
    match batt with
    | None => 0%Qc
    | Some b =>
        if Qc_ltb (c_min cons) solar_power && Qc_leb batt_max_threshold (b_max b)
        then (solar_power - c_min cons)%Qc
        else if Qc_ltb solar_power (c_min cons) && Qc_leb (b_max b) batt_min_threshold
        then (c_min cons - solar_power)%Qc
        else 0%Qc
    end in
  let grid_med :=
    match batt with
    | None => 0%Qc
    | Some b =>
        if Qc_ltb (c_med cons) solar_power && Qc_leb batt_max_threshold (b_med b)
        then (solar_power - c_med cons)%Qc
        else if Qc_ltb solar_power (c_med cons) && Qc_leb (b_med b) batt_min_threshold
        then (c_med cons - solar_power)%Qc
        else 0%Qc
    end in
  let grid_max :=
    match batt with
    | None => 0%Qc
    | Some b =>
        if Qc_ltb (c_max cons) solar_power && Qc_leb batt_max_threshold (b_min b)
        then (solar_power - c_max cons)%Qc
        else if Qc_ltb solar_power (c_max cons) && Qc_leb (b_min b) batt_min_threshold
        then (c_max cons - solar_power)%Qc
        else 0%Qc
    end in
  (grid_min, grid_med, grid_max).

(** The [while sim_time < end_sim] loop. *)
Fixpoint grid_loop (thr_min thr_max : Qc) (sh : gmap Z Qc) (cb : gmap Z cons_rec)
    (bb : gmap Z batt_rec) (fuel : nat) (sim_time end_t : Z) : list grid_point :=
  match fuel with
  | O => []
  | S f =>
      if Z.ltb sim_time end_t then
        let '(gmin, gmed, gmax) :=
          grid_hour thr_min thr_max (solar_at sh sim_time) (cons_at cb sim_time)
            (bb !! sim_time) in
        GridPoint sim_time gmin gmed gmax
          :: grid_loop thr_min thr_max sh cb bb f (sim_time + 3600) end_t
      else []
  end.

(** [forecast_grid(hass, days)] *)
Definition forecast_grid (solar_forecast : option (list (Z * Qc)))
    (cons_forecast : option (list (Z * cons_rec)))
    (batt_forecast : option (list (Z * batt_rec)))
    (min_soc_state max_soc_state : option Qc) (now days : Z) : list grid_point :=
  let sh := solar_hourly (forecast_or_empty solar_forecast) in
  let cb := cons_by_hour (forecast_or_empty cons_forecast) in
  let bb := batt_by_hour (forecast_or_empty batt_forecast) in
  let thr_min := threshold min_soc_state (qc 10) in
  let thr_max := threshold max_soc_state (qc 90) in
  grid_loop thr_min thr_max sh cb bb (sim_fuel days) (start_sim now) (end_sim now days).

End Grid.

(** ** Interval aggregation ([forecast_data.py]) *)

Module Aggregation.

(** A forecast point [{"time": ..., <field>: value, ...}]. *)
Record fpoint := FPoint { p_time : Z; p_fields : gmap string Qc }.

(** An aggregated point [{"time": ..., <field>: value, ...}]. *)
Record apoint := APoint { a_time : Z; a_fields : gmap string Qc }.

(** [ForecastData]; a field name may be [None]. *)
Record ForecastData := MkForecastData {
  forecast : list fpoint;
  updated_at : Z;
  value_field_min : option string;
  value_field_med : option string;
  value_field_max : option string
}.

Definition value_fields (fd : ForecastData) : list (option string) :=
  [value_field_min fd; value_field_med fd; value_field_max fd].

(** [datetime.combine((interval_start + interval / 2).date(), time(12, 0))]:
    noon of the day of the midpoint, computed on doubled seconds so that the
    half interval is exact. *)
Definition mid_noon (interval_start interval : Z) : Z :=
  Z.div (2 * interval_start + interval) (2 * 86400) * 86400 + 43200.

(** One iteration of [for field in fields: if field is not None and field
    in point: current_interval.setdefault(field, 0.0);
    current_interval[field] += point[field]] *)
Definition add_field (p : fpoint) (acc : gmap string Qc) (f : option string)
    : gmap string Qc :=
  match f with
  | Some k =>
      match p_fields p !! k with
      | Some v =>
          let old := match acc !! k with Some o => o | None => 0%Qc end in
          <[k := (old + v)%Qc]> acc
      | None => acc
      end
  | None => acc
  end.

Definition add_point (fields : list (option string)) (cur : gmap string Qc)
    (p : fpoint) : gmap string Qc :=
  fold_left (add_field p) fields cur.

(** One iteration of [{field: point[field] for field in fields
    if field is not None and field in point}] *)
Definition init_field (p : fpoint) (acc : gmap string Qc) (f : option string)
    : gmap string Qc :=
  match f with
  | Some k => match p_fields p !! k with Some v => <[k := v]> acc | None => acc end
  | None => acc
  end.

Definition init_from_point (fields : list (option string)) (p : fpoint) : gmap string Qc :=
  fold_left (init_field p) fields ∅.

(** The aggregated values of one interval: average or sum, then the
    optional post-processing function. *)
Definition finalize (aggregation_fn : string) (post_process_fn : option (Qc -> Qc))
    (fields : list (option string)) (cur : gmap string Qc) (points_in_interval : nat)
    : gmap string Qc :=
  fold_left (fun acc f =>
    match f with
    | Some k =>
        match cur !! k with
        | Some v =>
            let v1 := if String.eqb aggregation_fn "average"
                      then (v / Q2Qc (inject_Z (Z.of_nat points_in_interval)))%Qc
                      else v in
            let v2 := match post_process_fn with Some g => g v1 | None => v1 end in
            <[k := v2]> acc
        | None => acc
        end
    | None => acc
    end) fields ∅.

Definition emit (aggregation_fn : string) (post_process_fn : option (Qc -> Qc))
    (fields : list (option string)) (interval_start interval : Z)
    (cur : gmap string Qc) (n : nat) : apoint :=
  APoint (mid_noon interval_start interval)
    (finalize aggregation_fn post_process_fn fields cur n).

(** The [for point in self.forecast] loop; its state is
    [(current_interval, interval_start, points_in_interval, result)]. *)
Fixpoint agg_loop (aggregation_fn : string) (post_process_fn : option (Qc -> Qc))
    (fields : list (option string)) (interval : Z) (pts : list fpoint)
    (cur : gmap string Qc) (start : option Z) (n : nat) (result : list apoint)
    : gmap string Qc * option Z * nat * list apoint :=
  match pts with
  | [] => (cur, start, n, result)
  | p :: rest =>
      let s := match start with Some s => s | None => p_time p end in
      if Z.ltb (p_time p - s) interval then
        agg_loop aggregation_fn post_process_fn fields interval rest
          (add_point fields cur p) (Some s) (S n) result
      else
        agg_loop aggregation_fn post_process_fn fields interval rest
          (init_from_point fields p) (Some (p_time p)) 1
          (result ++ [emit aggregation_fn post_process_fn fields s interval cur n])
  end.

(** [if current_interval and points_in_interval > 0:] emit the last
    interval. *)
Definition process_last (aggregation_fn : string) (post_process_fn : option (Qc -> Qc))
    (fields : list (option string)) (interval : Z)
    (st : gmap string Qc * option Z * nat * list apoint) : list apoint :=
  let '(cur, start, n, result) := st in
  if negb (bool_decide (cur = ∅)) && Nat.ltb 0 n then
    match start with
    | Some s => result ++ [emit aggregation_fn post_process_fn fields s interval cur n]
    | None => result
    end
  else result.

(** [ForecastData.aggregate_by_interval]; [None] is the [ValueError]. *)
Definition aggregate_by_interval (fd : ForecastData) (aggregation_fn : string)
    (post_process_fn : option (Qc -> Qc)) (interval : Z) : option (list apoint) :=
  if negb (String.eqb aggregation_fn "sum" || String.eqb aggregation_fn "average")
  then None
  else
    match forecast fd with
    | [] => Some []
    | pts =>
        Some (process_last aggregation_fn post_process_fn (value_fields fd) interval
                (agg_loop aggregation_fn post_process_fn (value_fields fd) interval pts
                   ∅ None 0 []))
    end.

(** Sum of the channels of a group of points. *)
Definition sum_fields (fields : list (option string)) (w : list fpoint) : gmap string Qc :=
  fold_left (add_point fields) w ∅.

Fixpoint take_while {A} (P : A -> bool) (l : list A) : list A :=
  match l with [] => [] | x :: r => if P x then x :: take_while P r else [] end.

Fixpoint drop_while {A} (P : A -> bool) (l : list A) : list A :=
  match l with [] => [] | x :: r => if P x then drop_while P r else l end.

(** Windows anchored at their first point: a window opens at a point and
    holds the following points less than [interval] after it; the next
    window opens at the first point that does not fit. *)
Fixpoint anchored_windows (fuel : nat) (interval : Z) (pts : list fpoint)
    : list (Z * list fpoint) :=
  match fuel, pts with
  | S f, p :: rest =>
      let fits q := Z.ltb (p_time q - p_time p) interval in
      (p_time p, p :: take_while fits rest)
        :: anchored_windows f interval (drop_while fits rest)
  | _, _ => []
  end.

(** The windows the claim describes: consecutive fixed-size windows
    [[t0 + k * interval, t0 + (k + 1) * interval)] on a grid anchored at the
    first timestamp [t0]; points are grouped by their window index [k]. *)
Fixpoint group_fixed (t0 interval : Z) (pts : list fpoint) : list (Z * list fpoint) :=
  match pts with
  | [] => []
  | p :: rest =>
      let k := Z.div (p_time p - t0) interval in
      match group_fixed t0 interval rest with
      | (k', w) :: gs =>
          if Z.eqb k k' then (k, p :: w) :: gs else (k, [p]) :: (k', w) :: gs
      | [] => [(k, [p])]
      end
  end.

Definition aggregate_fixed_windows_spec (fd : ForecastData) (aggregation_fn : string)
    (post_process_fn : option (Qc -> Qc)) (interval : Z) : list apoint :=
  match forecast fd with
  | [] => []
  | p :: _ =>
      map (fun kw => emit aggregation_fn post_process_fn (value_fields fd)
                       (p_time p + kw.1 * interval) interval
                       (sum_fields (value_fields fd) kw.2) (length kw.2))
        (group_fixed (p_time p) interval (forecast fd))
  end.

End Aggregation.

(** ** Prediction loop of the coordinator ([forecast_coordinator.py]) *)

Module Coordinator.

(** [PredictionTask]; the callable is supplied separately, by task name. *)
Record PredictionTask := MkPredictionTask {
  name : string;
  update_interval : Z;
  forecast_key : string;
  last_run : option Z
}.

(** [PredictionTask.needs_update] *)
Definition needs_update (now : Z) (t : PredictionTask) : bool :=
  match last_run t with
  | None => true
  | Some lr => Z.leb (update_interval t) (now - lr)
  end.

(** [PredictionTask.mark_updated] *)
Definition mark_updated (now : Z) (t : PredictionTask) : PredictionTask :=
  MkPredictionTask (name t) (update_interval t) (forecast_key t) (Some now).

(** End of a tick: either [_async_update_data] returns [executed_forecasts],
    or it raises [ConfigEntryNotReady].  Both carry [self.forecasts] and the
    prediction tasks as mutated so far. *)
Inductive tick_outcome (FD : Type) :=
| TickDone (forecasts executed : gmap string FD) (tasks : list PredictionTask)
| NotReady (forecasts : gmap string FD) (tasks : list PredictionTask).
Arguments TickDone {FD} forecasts executed tasks.
Arguments NotReady {FD} forecasts tasks.

Definition outcome_forecasts {FD} (o : tick_outcome FD) : gmap string FD :=
  match o with TickDone fc _ _ => fc | NotReady fc _ => fc end.

Definition outcome_tasks {FD} (o : tick_outcome FD) : list PredictionTask :=
  match o with TickDone _ _ ts => ts | NotReady _ ts => ts end.

(** Put an already processed task in front of the tasks of an outcome. *)
Definition prepend {FD} (t : PredictionTask) (o : tick_outcome FD) : tick_outcome FD :=
  match o with
  | TickDone fc ex ts => TickDone fc ex (t :: ts)
  | NotReady fc ts => NotReady fc (t :: ts)
  end.

Definition prepend_tasks {FD} (ts : list PredictionTask) (o : tick_outcome FD) : tick_outcome FD :=
  fold_right prepend o ts.

Section Tick.
Context {FD : Type}.
(** [task.predict_callable()] of the task with the given name, reading the
    time and [self.forecasts]; [None] is a raised exception. *)
Context (predict : string -> Z -> gmap string FD -> option FD).

(** [for task in self.prediction_tasks: ...]; [n_tasks] is
    [len(self.prediction_tasks)]. *)
Fixpoint run_prediction_tasks (n_tasks : nat) (now : Z) (ts : list PredictionTask)
    (forecasts executed : gmap string FD) : tick_outcome FD :=
  match ts with
  | [] => TickDone forecasts executed []
  | t :: rest =>
      if needs_update now t then
        match predict (name t) now forecasts with
        | Some fd =>
            prepend (mark_updated now t)
              (run_prediction_tasks n_tasks now rest
                 (<[forecast_key t := fd]> forecasts) (<[forecast_key t := fd]> executed))
        | None =>
            if negb (Nat.eqb (size forecasts) n_tasks)
            then NotReady forecasts (t :: rest)
            else prepend t (run_prediction_tasks n_tasks now rest forecasts executed)
        end
      else prepend t (run_prediction_tasks n_tasks now rest forecasts executed)
  end.

(** The coordinator's state. *)
Record coord_state := MkCoordState {
  forecasts : gmap string FD;
  prediction_tasks : list PredictionTask
}.

(** The prediction part of [_async_update_data] (the training loop before
    it catches every exception and does not touch this state). *)
Definition async_update_data (now : Z) (st : coord_state) : tick_outcome FD :=
  run_prediction_tasks (length (prediction_tasks st)) now (prediction_tasks st)
    (forecasts st) ∅.

End Tick.

End Coordinator.

(** ** Schedules of the coordinator ([forecast_coordinator.py]) *)

Module Schedule.

(** Datetimes of this module are wall-clock microseconds since
    1970-01-01 00:00. *)
Definition US_PER_SECOND : Z := 1000000.
Definition US_PER_DAY : Z := 86400 * US_PER_SECOND.

(** [datetime.min] and [datetime.max]. *)
Definition DATETIME_MIN_US : Z := -62135596800 * US_PER_SECOND.
Definition DATETIME_MAX_US : Z := 253402300800 * US_PER_SECOND - 1.

(** [dt + delta]: raises [OverflowError] ([None]) when the result leaves
    the range of [datetime]. *)
Definition dt_add (dt delta : Z) : option Z :=
  if Z.leb DATETIME_MIN_US (dt + delta) && Z.leb (dt + delta) DATETIME_MAX_US
  then Some (dt + delta) else None.

(** [timedelta(days=n)]: raises [OverflowError] when [|n| > 999999999]. *)
Definition timedelta_days (n : Z) : option Z :=
  if Z.leb (Z.abs n) 999999999 then Some (n * US_PER_DAY) else None.

(** [_get_prediction_window(now, days_back, days_forward)]:
    [now.replace(hour=0, minute=0, second=0, microsecond=0)] is the floor
    to a multiple of [US_PER_DAY]; [dt - delta] is [dt + (-delta)]. *)
Definition get_prediction_window (now days_back days_forward : Z) : option (Z * Z) :=
  let midnight := now - now mod US_PER_DAY in
  back ← timedelta_days days_back;
  a ← dt_add midnight (- back);
  prediction_from ← dt_add a US_PER_SECOND;
  fwd ← timedelta_days days_forward;
  b ← dt_add prediction_from fwd;
  prediction_to ← dt_add b (- US_PER_SECOND);
  Some (prediction_from, prediction_to).

Definition PREDICT_DAYS_FORWARD : Z := 7.
Definition PREDICT_DAYS_BACK : Z := 0.

(** [TrainingTask]; the callables are supplied separately. *)
Record TrainingTask := MkTrainingTask {
  t_name : string;
  training_interval : Z
}.

(** [TrainingTask.needs_training]; [is_trained] and [last_trained] are the
    results of [is_trained_check()] and [last_trained_check()]. *)
Definition needs_training (task : TrainingTask) (is_trained : bool)
    (last_trained : option Z) (now : Z) : bool :=
  if negb is_trained then true
  else
    match last_trained with
    | None => true
    | Some lt => Z.ltb (training_interval task) (now - lt)
    end.

End Schedule.

(** ** Sensor helpers ([sensor.py], [ForecastData] in [forecast_data.py]) *)

Module Sensors.
Import Aggregation.

(** [t.date()] of a wall-clock timestamp. *)
Definition date_of (t : Z) : Z := Z.div t 86400.

(** [point[forecast_data.value_field_med]]; [None] is the [KeyError]. *)
Definition med_value (fd : ForecastData) (p : fpoint) : option Qc :=
  match value_field_med fd with
  | Some k => p_fields p !! k
  | None => None
  end.

(** [get_forecast_records_for_today(forecast_data)], consumed to the end
    (by [sum]); [None] is the [KeyError] raised while consuming it. *)
Definition get_forecast_records_for_today (fd : ForecastData) (now : Z) : option (list Qc) :=
  mapM (med_value fd)
    (List.filter (fun p => Z.eqb (date_of (p_time p)) (date_of now)) (forecast fd)).

(** [get_forecast_records_for_rest_of_today(forecast_data)], consumed to
    the end. *)
Definition get_forecast_records_for_rest_of_today (fd : ForecastData) (now : Z)
    : option (list Qc) :=
  mapM (med_value fd)
    (List.filter (fun p => Z.ltb now (p_time p) && Z.eqb (date_of (p_time p)) (date_of now))
       (forecast fd)).

(** The loop of [get_nearest_forecast_record]: the last point before the
    first one strictly after [now]. *)
Fixpoint last_past_point (now : Z) (pts : list fpoint) (last : option fpoint)
    : option fpoint :=
  match pts with
  | [] => last
  | p :: rest => if Z.ltb now (p_time p) then last else last_past_point now rest (Some p)
  end.

(** [get_nearest_forecast_record(forecast_data)]: [Some None] is the
    returned [None]; [None] is the [KeyError]. *)
Definition get_nearest_forecast_record (fd : ForecastData) (now : Z) : option (option Qc) :=
  match last_past_point now (forecast fd) None with
  | Some p => v ← med_value fd p; Some (Some v)
  | None => Some None
  end.

(** Python's [round(x)] on a float: the nearest integer, ties to even. *)
Definition py_round (x : Qc) : Z :=
  let f := Qfloor (this x) in
  match Qcompare (this x - inject_Z f) (1 # 2) with
  | Lt => f
  | Gt => f + 1
  | Eq => if Z.even f then f else f + 1
  end.

(** [sum(records)]: Python's [sum] starts from [0]. *)
Definition py_sum (vs : list Qc) : Qc := fold_left Qcplus vs 0%Qc.

(** State of [ForecastSensorSolarEnergyToday]:
    [round(sum(get_forecast_records_for_today(forecast_data)) / 4)]. *)
Definition solar_energy_today (fd : ForecastData) (now : Z) : option Z :=
  vs ← get_forecast_records_for_today fd now; Some (py_round (py_sum vs / qc 4)%Qc).

(** State of [ForecastSensorSolarEnergyRestOfToday]. *)
Definition solar_energy_rest_of_today (fd : ForecastData) (now : Z) : option Z :=
  vs ← get_forecast_records_for_rest_of_today fd now; Some (py_round (py_sum vs / qc 4)%Qc).

(** State of [ForecastSensorGridEnergyToday]:
    [round(sum(get_forecast_records_for_today(forecast_data)))]. *)
Definition grid_energy_today (fd : ForecastData) (now : Z) : option Z :=
  vs ← get_forecast_records_for_today fd now; Some (py_round (py_sum vs)).

(** State of [ForecastSensorGridEnergyRestOfToday]. *)
Definition grid_energy_rest_of_today (fd : ForecastData) (now : Z) : option Z :=
  vs ← get_forecast_records_for_rest_of_today fd now; Some (py_round (py_sum vs)).

End Sensors.

(** ** Daily summaries ([forecast_summary.py]) *)

Module DailySummary.
Import Aggregation.

(** [ForecastDailySummary] *)
Record ForecastDailySummary := MkForecastDailySummary {
  date : Z;
  med_min : Qc;
  med_min_time : Z;
  med_max : Qc;
  med_max_time : Z;
  med_avg : Qc;
  med_sum : Qc
}.

(** [grouped[day].append((t, med_value))] on a [defaultdict(list)]: days
    keep the order in which they were first inserted. *)
Fixpoint group_append (day : Z) (x : Z * Qc) (g : list (Z * list (Z * Qc)))
    : list (Z * list (Z * Qc)) :=
  match g with
  | [] => [(day, [x])]
  | (d, vs) :: rest =>
      if Z.eqb d day then (d, vs ++ [x]) :: rest else (d, vs) :: group_append day x rest
  end.

(** The grouping loop; entries whose med value is missing are skipped. *)
Definition group_by_day (fd : ForecastData) : list (Z * list (Z * Qc)) :=
  fold_left (fun g p =>
    match Sensors.med_value fd p with
    | Some v => group_append (Sensors.date_of (p_time p)) (p_time p, v) g
    | None => g
    end) (forecast fd) [].

(** [min(values, key=lambda x: x[1])]: the first entry of least value. *)
Fixpoint min_entry (best : Z * Qc) (l : list (Z * Qc)) : Z * Qc :=
  match l with
  | [] => best
  | x :: r => min_entry (if Qc_ltb x.2 best.2 then x else best) r
  end.

(** [max(values, key=lambda x: x[1])]: the first entry of greatest value. *)
Fixpoint max_entry (best : Z * Qc) (l : list (Z * Qc)) : Z * Qc :=
  match l with
  | [] => best
  | x :: r => max_entry (if Qc_ltb best.2 x.2 then x else best) r
  end.

(** The summary of one day; [None] for [if not values: continue].  The
    med values are Python floats, so [float(...)] keeps them; [sum] and the
    division round. *)
Definition summarize (day : Z) (values : list (Z * Qc)) : option ForecastDailySummary :=
  match values with
  | [] => None
  | x :: rest =>
      let mn := min_entry x rest in
      let mx := max_entry x rest in
      let total := fsum (map snd values) in
      let avg := fl (total / Q2Qc (inject_Z (Z.of_nat (length values))))%Qc in
      Some (MkForecastDailySummary day mn.2 mn.1 mx.2 mx.1 avg total)
  end.

(** [aggregate_daily_forecast(forecast_data)]: the pair
    [(forecast_data.daily_summaries, forecast_data.today_summary)];
    [today] is [datetime.now().date()]. *)
Definition aggregate_daily_forecast (fd : ForecastData) (today : Z)
    : list ForecastDailySummary * option ForecastDailySummary :=
  let summaries := omap (fun dv => summarize dv.1 dv.2) (group_by_day fd) in
  (summaries, List.find (fun s => Z.eqb (date s) today) summaries).

End DailySummary.

(** ** Auxiliary notions used in the statements and proofs *)

(** The entries of an hourly input series whose time falls in the hour
    [h] (i.e. whose [floor_hour] is [h]), in input order. *)
Definition hour_entries {A} (h : Z) (es : list (Z * A)) : list (Z * A) :=
  List.filter (fun e => Z.eqb (floor_hour e.1) h) es.

(** A count as a float. *)
Definition natQ (n : nat) : Qc := Q2Qc (inject_Z (Z.of_nat n)).

Module DailyAux.
Import Aggregation DailySummary.

(** The entries of a day in the association list built by [group_by_day]. *)
Definition glookup (g : list (Z * list (Z * Qc))) (d : Z) : list (Z * Qc) :=
  match List.find (fun dv => Z.eqb dv.1 d) g with Some dv => dv.2 | None => [] end.

(** The entries [(time, med)] of the points of a list dated [d]. *)
Definition day_entries (fd : ForecastData) (l : list fpoint) (d : Z) : list (Z * Qc) :=
  omap (fun p => if Z.eqb (Sensors.date_of (p_time p)) d
                 then v ← Sensors.med_value fd p; Some (p_time p, v) else None) l.

(** One iteration of the grouping loop of [group_by_day]. *)
Definition group_step (fd : ForecastData) (g : list (Z * list (Z * Qc))) (p : fpoint) :=
  match Sensors.med_value fd p with
  | Some v => group_append (Sensors.date_of (p_time p)) (p_time p, v) g
  | None => g
  end.

(** The med values of the points of a forecast dated [d], in order. *)
Definition day_values (fd : ForecastData) (d : Z) : list Qc :=
  omap (fun p => if Z.eqb (Sensors.date_of (p_time p)) d then Sensors.med_value fd p else None)
    (forecast fd).

End DailyAux.

Module AggregationAux.
Import Aggregation.

(** A point produced by [emit] for some interval. *)
Definition emitted (aggregation_fn : string) (post_process_fn : option (Qc -> Qc))
    (fields : list (option string)) (interval : Z) (a : apoint) : Prop :=
  exists s cur n, a = emit aggregation_fn post_process_fn fields s interval cur n.

(** Whether an interval has been opened. *)
Definition started (o : option Z) : nat := match o with Some _ => 1%nat | None => 0%nat end.

End AggregationAux.

(** ** Concrete inputs used by the examples below *)

Module Examples.
Import Aggregation.

(** A point carrying the value [v] in the three channels ["min"], ["med"]
    and ["max"]. *)
Definition channel_point (t v : Z) : fpoint :=
  FPoint t (list_to_map [("min", qc v); ("med", qc v); ("max", qc v)]).

(** Four points over about two hours, with a gap between 30 and 70 minutes. *)
Definition series_with_gap : ForecastData :=
  MkForecastData [channel_point 0 1; channel_point 1800 2; channel_point 4200 3;
                  channel_point 7500 4] 0 (Some "min") (Some "med") (Some "max").

(** Four prediction tasks as created by [_create_prediction_tasks], none
    run yet; results are modelled by numbers. *)
Definition prediction_task (n k : string) (interval : Z) : Coordinator.PredictionTask :=
  Coordinator.MkPredictionTask n interval k None.

Definition example_tasks : list Coordinator.PredictionTask :=
  [prediction_task "Solar prediction" "forecast_data_pv_power" 900;
   prediction_task "Consumption prediction" "forecast_data_power_consumption" 900;
   prediction_task "Battery prediction" "forecast_data_battery" 60;
   prediction_task "Grid prediction" "forecast_data_grid" 60].

(** Every prediction succeeds except the grid prediction, which raises. *)
Definition grid_fails (n : string) (now : Z) (fc : gmap string nat) : option nat :=
  if String.eqb n "Grid prediction" then None else Some 1%nat.

(** The first tick: no forecast ever produced. *)
Definition bootstrap_state : Coordinator.coord_state :=
  Coordinator.MkCoordState (∅ : gmap string nat) example_tasks.

(** A later tick: every kind has a stored result. *)
Definition steady_state : Coordinator.coord_state :=
  Coordinator.MkCoordState
    (list_to_map [("forecast_data_pv_power", 0%nat); ("forecast_data_power_consumption", 0%nat);
                  ("forecast_data_battery", 0%nat); ("forecast_data_grid", 0%nat)]
       : gmap string nat)
    example_tasks.

(** Four points whose times are not sorted: the last one lies between the
    first two. *)
Definition unsorted_series : ForecastData :=
  MkForecastData [channel_point 0 1; channel_point 3600 2; channel_point 7200 3;
                  channel_point 1800 4] 0 (Some "min") (Some "med") (Some "max").

End Examples.

(** ** Order facts on the Python [min]/[max] clamp *)

Create HintDb qc_order.
#[export] Hint Resolve Qcle_refl Qclt_le_weak : qc_order.
#[export] Hint Resolve Qcle_trans Qclt_le_trans Qcle_lt_trans : qc_order.

Ltac qc_cases :=
  unfold Battery.clamp, py_max, py_min, Qc_ltb in *;
  repeat match goal with
         | |- context [Qclt_le_dec ?a ?b] => destruct (Qclt_le_dec a b)
         end.

Lemma clamp_ge_lo (lo hi x : Qc) : (lo <= Battery.clamp lo hi x)%Qc.
Proof. qc_cases; eauto with qc_order. Qed.

Lemma clamp_le_hi (lo hi x : Qc) :
  (lo <= hi)%Qc -> (Battery.clamp lo hi x <= hi)%Qc.
Proof. intros H; qc_cases; eauto with qc_order. Qed.

Lemma py_min_mono (hi x y : Qc) :
  (x <= y)%Qc -> (py_min hi x <= py_min hi y)%Qc.
Proof. intros H; qc_cases; eauto with qc_order. Qed.

Lemma py_max_mono (lo x y : Qc) :
  (x <= y)%Qc -> (py_max lo x <= py_max lo y)%Qc.
Proof. intros H; qc_cases; eauto with qc_order. Qed.

Lemma clamp_mono (lo hi x y : Qc) :
  (x <= y)%Qc -> (Battery.clamp lo hi x <= Battery.clamp lo hi y)%Qc.
Proof. intros H; apply py_max_mono, py_min_mono, H. Qed.


Lemma Qcminus_le_compat (s a b : Qc) : (a <= b)%Qc -> (s - b <= s - a)%Qc.
Proof.
  intros H; unfold Qcminus; apply Qcplus_le_compat;
    [apply Qcle_refl | apply Qcopp_le_compat, H].
Qed.

(** ** Battery simulator: facts about the loop *)

Section BatteryLoop.
Import Battery.
Context (cfg : batt_config) (sh : gmap Z Qc) (cb : gmap Z cons_rec).

Lemma sim_loop_cons fuel t e st :
  sim_loop cfg sh cb (S fuel) t e st =
  if Z.ltb t e then
    (t, battery_step cfg (solar_at sh t) (cons_at cb t) st)
      :: sim_loop cfg sh cb fuel (t + 3600) e
           (battery_step cfg (solar_at sh t) (cons_at cb t) st)
  else [].
Proof. reflexivity. Qed.

(** Every state is produced by [battery_step]; a property preserved by the
    step from any state holds after every iteration. *)
Lemma sim_loop_step_invariant (P : sim_state -> Prop) fuel t e st :
  (forall s c st0, P (battery_step cfg s c st0)) ->
  Forall (fun p => P p.2) (sim_loop cfg sh cb fuel t e st).
Proof.
  intros HP; revert t st; induction fuel as [|fuel IH]; intros t st; [constructor|].
  rewrite sim_loop_cons; destruct (Z.ltb t e); [|constructor].
  constructor; [apply HP | apply IH].
Qed.

End BatteryLoop.

Section BatteryFacts.
Import Battery.

(** Consumption entries with ordered channels give an ordered hourly map. *)
Lemma cons_by_hour_ordered_aux (entries : list (Z * cons_rec)) (acc : gmap Z cons_rec) :
  map_Forall (fun _ c => (c_min c <= c_med c)%Qc /\ (c_med c <= c_max c)%Qc) acc ->
  Forall (fun e => (c_min e.2 <= c_med e.2)%Qc /\ (c_med e.2 <= c_max e.2)%Qc) entries ->
  map_Forall (fun _ c => (c_min c <= c_med c)%Qc /\ (c_med c <= c_max c)%Qc)
    (fold_left (fun acc e => <[floor_hour e.1 := e.2]> acc) entries acc).
Proof.
  revert acc; induction entries as [|e entries IH]; intros acc Hacc Hes; simpl; [exact Hacc|].
  apply Forall_cons in Hes as [He Hes].
  apply IH; [apply map_Forall_insert_2; assumption | exact Hes].
Qed.

Lemma cons_at_ordered (entries : list (Z * cons_rec)) (t : Z) :
  Forall (fun e => (c_min e.2 <= c_med e.2)%Qc /\ (c_med e.2 <= c_max e.2)%Qc) entries ->
  (c_min (cons_at (cons_by_hour entries) t) <= c_med (cons_at (cons_by_hour entries) t))%Qc /\
  (c_med (cons_at (cons_by_hour entries) t) <= c_max (cons_at (cons_by_hour entries) t))%Qc.
Proof.
  intros Hes; unfold cons_at.
  destruct (cons_by_hour entries !! t) as [c|] eqn:Hc.
  - eapply (cons_by_hour_ordered_aux entries ∅); [apply map_Forall_empty | exact Hes | exact Hc].
  - simpl; split; apply Qcle_refl.
Qed.

Lemma battery_step_ordered (cfg : batt_config) (s : Qc) (c : cons_rec) (st : sim_state) :
  (c_min c <= c_med c)%Qc -> (c_med c <= c_max c)%Qc ->
  (e_min st <= e_med st)%Qc -> (e_med st <= e_max st)%Qc ->
  (e_min (battery_step cfg s c st) <= e_med (battery_step cfg s c st))%Qc /\
  (e_med (battery_step cfg s c st) <= e_max (battery_step cfg s c st))%Qc.
Proof.
  intros H1 H2 H3 H4; simpl; split; apply clamp_mono, Qcplus_le_compat;
    try assumption; apply Qcminus_le_compat; assumption.
Qed.

End BatteryFacts.

Lemma sim_loop_ordered (cfg : Battery.batt_config) (sh : gmap Z Qc)
    (entries : list (Z * cons_rec)) fuel t e (st : Battery.sim_state) :
  Forall (fun e => (c_min e.2 <= c_med e.2)%Qc /\ (c_med e.2 <= c_max e.2)%Qc) entries ->
  (Battery.e_min st <= Battery.e_med st)%Qc -> (Battery.e_med st <= Battery.e_max st)%Qc ->
  Forall (fun p => (Battery.e_min p.2 <= Battery.e_med p.2)%Qc /\
                   (Battery.e_med p.2 <= Battery.e_max p.2)%Qc)
    (Battery.sim_loop cfg sh (cons_by_hour entries) fuel t e st).
Proof.
  intros Hes; revert t st; induction fuel as [|fuel IH]; intros t st H1 H2; [constructor|].
  rewrite sim_loop_cons; destruct (Z.ltb t e); [|constructor].
  destruct (cons_at_ordered entries t Hes) as [Hc1 Hc2].
  destruct (battery_step_ordered cfg (solar_at sh t) (cons_at (cons_by_hour entries) t) st
              Hc1 Hc2 H1 H2) as [Hs1 Hs2].
  constructor; [split; assumption | apply IH; assumption].
Qed.

(** ** Battery simulator: claims *)




(** C3 (amended).  When the SOC bounds are ordered
    ([batt_min_energy <= batt_max_energy]), after every hourly step of the
    simulation loop, whatever the inputs and the starting state, the carried
    energy of each of the three scenarios lies in
    [[batt_min_energy, batt_max_energy]]. *)
Theorem battery_energy_within_soc_bounds (cfg : Battery.batt_config) (sh : gmap Z Qc)
    (cb : gmap Z cons_rec) (fuel : nat) (t e : Z) (st : Battery.sim_state) :
  (Battery.batt_min_energy cfg <= Battery.batt_max_energy cfg)%Qc ->
  Forall (fun p =>
      (Battery.batt_min_energy cfg <= Battery.e_min p.2 <= Battery.batt_max_energy cfg)%Qc /\
      (Battery.batt_min_energy cfg <= Battery.e_med p.2 <= Battery.batt_max_energy cfg)%Qc /\
      (Battery.batt_min_energy cfg <= Battery.e_max p.2 <= Battery.batt_max_energy cfg)%Qc)
    (Battery.sim_loop cfg sh cb fuel t e st).
Proof.
  intros Hb.
  apply (sim_loop_step_invariant cfg sh cb (fun st1 =>
      (Battery.batt_min_energy cfg <= Battery.e_min st1 <= Battery.batt_max_energy cfg)%Qc /\
      (Battery.batt_min_energy cfg <= Battery.e_med st1 <= Battery.batt_max_energy cfg)%Qc /\
      (Battery.batt_min_energy cfg <= Battery.e_max st1 <= Battery.batt_max_energy cfg)%Qc)).
  intros s c st0; simpl.
  repeat split; solve [apply clamp_ge_lo | apply clamp_le_hi, Hb].
Qed.

Lemma battery_energy_within_soc_bounds_witness :
  Forall (fun p =>
      (qc 1000 <= Battery.e_min p.2 <= qc 9000)%Qc /\
      (qc 1000 <= Battery.e_med p.2 <= qc 9000)%Qc /\
      (qc 1000 <= Battery.e_max p.2 <= qc 9000)%Qc)
    (Battery.sim_loop (Battery.BattConfig (qc 50) (qc 10000) (qc 10) (qc 90))
       {[ 0 := qc 8000 ]} ∅ 2 0 7200
       (Battery.initial_state (Battery.BattConfig (qc 50) (qc 10000) (qc 10) (qc 90)))).
Proof.
  apply (battery_energy_within_soc_bounds (Battery.BattConfig (qc 50) (qc 10000) (qc 10) (qc 90))
           {[ 0 := qc 8000 ]} ∅ 2 0 7200).
  vm_compute; intros H; discriminate H.
Defined.

(** C3 (counterexample).  With a minimum SOC (90%) above the maximum SOC
    (10%), the clamp returns [batt_min_energy] = 9000 Wh after the first
    step, which is above [batt_max_energy] = 1000 Wh. *)
Lemma battery_energy_within_soc_bounds_counterexample :
  exists p,
    In p (Battery.sim_loop (Battery.BattConfig (qc 50) (qc 10000) (qc 90) (qc 10)) ∅ ∅ 1 0 3600
            (Battery.initial_state (Battery.BattConfig (qc 50) (qc 10000) (qc 90) (qc 10)))) /\
    ~ (Battery.e_min p.2 <= Battery.batt_max_energy
                              (Battery.BattConfig (qc 50) (qc 10000) (qc 90) (qc 10)))%Qc.
Proof.
  eexists; split; [left; reflexivity|].
  vm_compute; intros H; apply H; reflexivity.
Qed.

(** C9.  If every consumption entry satisfies [min <= med <= max], the
    carried energies of the three scenarios satisfy
    [energy_min <= energy_med <= energy_max] after every step of every
    simulation run. *)
Theorem battery_scenarios_stay_ordered (cfg : Battery.batt_config)
    (solar_forecast : list (Z * Qc)) (cons_forecast : list (Z * cons_rec)) (now days : Z) :
  Forall (fun e => (c_min e.2 <= c_med e.2)%Qc /\ (c_med e.2 <= c_max e.2)%Qc) cons_forecast ->
  Forall (fun p => (Battery.e_min p.2 <= Battery.e_med p.2)%Qc /\
                   (Battery.e_med p.2 <= Battery.e_max p.2)%Qc)
    (Battery.sim_loop cfg (solar_hourly solar_forecast) (cons_by_hour cons_forecast)
       (sim_fuel days) (start_sim now) (end_sim now days) (Battery.initial_state cfg)).
Proof.
  intros Hes; apply sim_loop_ordered; [exact Hes | apply Qcle_refl | apply Qcle_refl].
Qed.

Lemma battery_scenarios_stay_ordered_witness :
  Forall (fun p => (Battery.e_min p.2 <= Battery.e_med p.2)%Qc /\
                   (Battery.e_med p.2 <= Battery.e_max p.2)%Qc)
    (Battery.sim_loop (Battery.BattConfig (qc 50) (qc 10000) (qc 10) (qc 90))
       (solar_hourly [(3600, qc 2000); (4500, qc 4000)])
       (cons_by_hour [(3600, ConsRec (qc 100) (qc 200) (qc 300))])
       (sim_fuel 1) (start_sim 1800) (end_sim 1800 1)
       (Battery.initial_state (Battery.BattConfig (qc 50) (qc 10000) (qc 10) (qc 90)))).
Proof.
  apply (battery_scenarios_stay_ordered (Battery.BattConfig (qc 50) (qc 10000) (qc 10) (qc 90))
           [(3600, qc 2000); (4500, qc 4000)] [(3600, ConsRec (qc 100) (qc 200) (qc 300))]
           1800 1).
  repeat constructor; vm_compute; intros H; discriminate H.
Defined.

(** C5 (code bug).  No solar and no consumption do not keep the battery
    output at the measured capacity.  [forecast_battery_capacity] raises
    [AttributeError] at line 67 whatever its inputs, since [const.py]
    defines no [SENSOR_PV_POWER_FORECAST], so no run produces output; and
    the simulation of lines 72-181 converts the capacity to energy and back
    with float rounding: from a measured capacity of 10.3 % with a maximum
    energy of 10000 Wh, SOC limits of 10 % and 90 %, and empty solar and
    consumption forecasts, each of the 24 simulated hours reports
    10.299999999999999 % in all three scenarios. *)
Theorem battery_idle_capacity_at_failing_input :
  Battery.forecast_battery_capacity
    (Battery.BattConfig (float_lit 103 1) (qc 10000) (qc 10) (qc 90)) [] [] 0 1 = None /\
  match Battery.simulate_battery
          (Battery.BattConfig (float_lit 103 1) (qc 10000) (qc 10) (qc 90)) [] [] 0 1 with
  | Some (_ :: pts) =>
      length pts = 24%nat /\
      Forall (fun p => Battery.o_min p = float_lit 10299999999999999 15 /\
                       Battery.o_med p = float_lit 10299999999999999 15 /\
                       Battery.o_max p = float_lit 10299999999999999 15) pts /\
      float_lit 10299999999999999 15 <> float_lit 103 1
  | _ => False
  end.
Proof.
  split; [vm_compute; reflexivity|].
  vm_compute; split; [reflexivity|]; split.
  - repeat (apply List.Forall_cons || apply List.Forall_nil || split);
      apply Qc_is_canon; vm_compute; reflexivity.
  - intros H; apply (f_equal this) in H; discriminate H.
Qed.

(** ** Grid exchange simulator: facts about one hour and the loop *)

Lemma Qc_ltb_true (a b : Qc) : Qc_ltb a b = true -> (a < b)%Qc.
Proof. unfold Qc_ltb; destruct (Qclt_le_dec a b); [auto | discriminate]. Qed.

Lemma Qc_ltb_minus_nonneg (a b : Qc) : Qc_ltb a b = true -> (0 <= b - a)%Qc.
Proof.
  intros H; apply Qc_ltb_true, Qclt_minus_iff in H; apply Qclt_le_weak, H.
Qed.

(** Each scenario's exchange is non-negative. *)
Lemma grid_hour_nonneg (thr_min thr_max s : Qc) (c : cons_rec) (b : option Grid.batt_rec) :
  (0 <= (Grid.grid_hour thr_min thr_max s c b).1.1)%Qc /\
  (0 <= (Grid.grid_hour thr_min thr_max s c b).1.2)%Qc /\
  (0 <= (Grid.grid_hour thr_min thr_max s c b).2)%Qc.
Proof.
  unfold Grid.grid_hour; destruct b as [b|]; simpl;
    [| repeat split; apply Qcle_refl].
  repeat split;
  repeat match goal with
  | |- context [if ?x then _ else _] =>
      let E := fresh "E" in destruct x eqn:E
  end;
  try apply Qcle_refl;
  repeat match goal with
  | H : (_ && _)%bool = true |- _ => apply andb_prop in H as [H _]
  end;
  apply Qc_ltb_minus_nonneg; assumption.
Qed.



(** Every output point is the one-hour computation at its own hour, with
    the defaults of the lookups. *)
Lemma grid_loop_points (thr_min thr_max : Qc) (sh : gmap Z Qc) (cb : gmap Z cons_rec)
    (bb : gmap Z Grid.batt_rec) fuel t e :
  Forall (fun p =>
      (Grid.g_min p, Grid.g_med p, Grid.g_max p) =
      Grid.grid_hour thr_min thr_max (solar_at sh (Grid.g_time p))
        (cons_at cb (Grid.g_time p)) (bb !! Grid.g_time p))
    (Grid.grid_loop thr_min thr_max sh cb bb fuel t e).
Proof.
  revert t; induction fuel as [|fuel IH]; intros t; cbn [Grid.grid_loop]; [constructor|].
  destruct (Z.ltb t e); [|constructor].
  destruct (Grid.grid_hour thr_min thr_max (solar_at sh t) (cons_at cb t) (bb !! t))
    as [[gmin gmed] gmax] eqn:Hg.
  constructor; [cbn [Grid.g_min Grid.g_med Grid.g_max Grid.g_time]; rewrite Hg; reflexivity | apply IH].
Qed.

(** ** Grid exchange simulator: claims *)




(** C10.  Every value emitted by the grid simulator is non-negative in all
    three channels, for all inputs. *)
Theorem grid_exchange_nonneg (solar_forecast : option (list (Z * Qc)))
    (cons_forecast : option (list (Z * cons_rec)))
    (batt_forecast : option (list (Z * Grid.batt_rec)))
    (min_soc_state max_soc_state : option Qc) (now days : Z) :
  Forall (fun p => (0 <= Grid.g_min p)%Qc /\ (0 <= Grid.g_med p)%Qc /\ (0 <= Grid.g_max p)%Qc)
    (Grid.forecast_grid solar_forecast cons_forecast batt_forecast
       min_soc_state max_soc_state now days).
Proof.
  unfold Grid.forecast_grid.
  eapply Forall_impl; [apply grid_loop_points|].
  intros p Hp; simpl in Hp.
  match type of Hp with _ = Grid.grid_hour ?a ?b ?s ?c ?bt =>
    destruct (grid_hour_nonneg a b s c bt) as (H1 & H2 & H3) end.
  rewrite <- Hp in H1, H2, H3; simpl in H1, H2, H3; auto.
Qed.

(** ** Interval aggregation: facts about the loop *)

Section AggregationLoop.
Import Aggregation.
Context (aggregation_fn : string) (post_process_fn : option (Qc -> Qc))
        (interval : Z).

Lemma add_field_keeps (p : fpoint) (acc : gmap string Qc) (f : option string) (k : string) :
  is_Some (acc !! k) -> is_Some (add_field p acc f !! k).
Proof.
  intros Hk; unfold add_field.
  destruct f as [k'|]; [|exact Hk].
  destruct (p_fields p !! k'); [|exact Hk].
  destruct (decide (k' = k)) as [->|Hne];
    [rewrite lookup_insert_eq; eauto | rewrite lookup_insert_ne; auto].
Qed.

Lemma add_point_keeps (fields : list (option string)) (cur : gmap string Qc)
    (p : fpoint) (k : string) :
  is_Some (cur !! k) -> is_Some (add_point fields cur p !! k).
Proof.
  unfold add_point; revert cur; induction fields as [|f fs IH]; intros cur Hk; [exact Hk|].
  simpl; apply IH, add_field_keeps, Hk.
Qed.

Lemma add_point_adds (fields : list (option string)) (cur : gmap string Qc)
    (p : fpoint) (k : string) :
  In (Some k) fields -> is_Some (p_fields p !! k) ->
  is_Some (add_point fields cur p !! k).
Proof.
  unfold add_point; revert cur; induction fields as [|f fs IH]; intros cur Hin Hp;
    [destruct Hin|].
  simpl; destruct Hin as [Hf | Hin]; [|apply IH; assumption].
  subst f; apply (add_point_keeps fs).
  destruct Hp as [v Hv]; unfold add_field; rewrite Hv, lookup_insert_eq; eauto.
Qed.

Lemma fold_add_point_keeps (fields : list (option string)) (w : list fpoint)
    (cur : gmap string Qc) (k : string) :
  is_Some (cur !! k) -> is_Some (fold_left (add_point fields) w cur !! k).
Proof.
  revert cur; induction w as [|q w IH]; intros cur Hk; [exact Hk|].
  simpl; apply IH, add_point_keeps, Hk.
Qed.

Lemma In_omap_id (fs : list (option string)) (k : string) :
  In (Some k) fs -> In k (omap (fun x => x) fs).
Proof.
  induction fs as [|f fs IH]; simpl; [auto|].
  intros [-> | H]; [left; reflexivity|].
  destruct f; [right|]; auto.
Qed.

Lemma fold_init_add (p : fpoint) (fs : list (option string)) (acc : gmap string Qc) :
  NoDup (omap (fun x => x) fs) ->
  (forall k, In (Some k) fs -> acc !! k = None) ->
  fold_left (init_field p) fs acc = fold_left (add_field p) fs acc.
Proof.
  revert acc; induction fs as [|f fs IH]; intros acc Hnd Hnone; [reflexivity|].
  simpl in *. destruct f as [k|].
  - apply NoDup_cons in Hnd as [Hk Hnd].
    unfold init_field, add_field at 2.
    destruct (p_fields p !! k) as [v|] eqn:Hv.
    + rewrite (Hnone k (or_introl eq_refl)), Qcplus_0_l.
      apply IH; [exact Hnd|].
      intros k' Hin; rewrite lookup_insert_ne; [apply Hnone; right; exact Hin|].
      intros ->; apply Hk, list_elem_of_In, In_omap_id, Hin.
    + apply IH; [exact Hnd|]. intros k' Hin; apply Hnone; right; exact Hin.
  - apply IH; [exact Hnd|]. intros k' Hin; apply Hnone; right; exact Hin.
Qed.

(** With distinct channel names, the dict comprehension that opens a new
    interval agrees with adding the point to an empty interval. *)
Lemma init_from_point_add (fields : list (option string)) (p : fpoint) :
  NoDup (omap (fun x => x) fields) ->
  init_from_point fields p = add_point fields ∅ p.
Proof.
  intros Hnd; apply fold_init_add; [exact Hnd|]. intros k _; apply lookup_empty.
Qed.

Lemma agg_loop_take_drop (fields : list (option string)) (s : Z) (rest : list fpoint)
    (cur : gmap string Qc) (n : nat) (result : list apoint) :
  agg_loop aggregation_fn post_process_fn fields interval rest cur (Some s) n result =
  agg_loop aggregation_fn post_process_fn fields interval
    (drop_while (fun q => Z.ltb (p_time q - s) interval) rest)
    (fold_left (add_point fields) (take_while (fun q => Z.ltb (p_time q - s) interval) rest) cur)
    (Some s) (n + length (take_while (fun q => Z.ltb (p_time q - s) interval) rest)) result.
Proof.
  revert cur n; induction rest as [|q rest IH]; intros cur n; simpl.
  - rewrite Nat.add_0_r; reflexivity.
  - destruct (Z.ltb (p_time q - s) interval) eqn:Hq.
    + rewrite IH; simpl; rewrite Nat.add_succ_r; reflexivity.
    + simpl; rewrite Nat.add_0_r, Hq; reflexivity.
Qed.

Lemma drop_while_head {A} (P : A -> bool) (l : list A) (q : A) (r : list A) :
  drop_while P l = q :: r -> P q = false.
Proof.
  induction l as [|x l IH]; simpl; [discriminate|].
  destruct (P x) eqn:Hx; [exact IH|]. intros H; injection H as -> _; exact Hx.
Qed.

Lemma drop_while_length {A} (P : A -> bool) (l : list A) :
  (length (drop_while P l) <= length l)%nat.
Proof. induction l as [|x l IH]; simpl; [lia|]. destruct (P x); simpl; lia. Qed.

Lemma drop_while_Forall {A} (P : A -> bool) (Q : A -> Prop) (l : list A) :
  Forall Q l -> Forall Q (drop_while P l).
Proof.
  induction l as [|x l IH]; simpl; intros H; [exact H|].
  apply Forall_cons in H as [Hx Hl]. destruct (P x); [apply IH, Hl | constructor; assumption].
Qed.

Lemma anchored_windows_nil (fuel : nat) :
  anchored_windows fuel interval [] = [].
Proof. destruct fuel; reflexivity. Qed.

(** The loop, started on a window opened at [p], emits exactly the windows
    anchored at their first point. *)
Lemma agg_loop_anchored (fields : list (option string)) (fuel : nat) :
  NoDup (omap (fun x => x) fields) ->
  forall (p : fpoint) (rest : list fpoint) (result : list apoint),
  (length (p :: rest) <= fuel)%nat ->
  Forall (fun q => exists k, In (Some k) fields /\ is_Some (p_fields q !! k)) (p :: rest) ->
  process_last aggregation_fn post_process_fn fields interval
    (agg_loop aggregation_fn post_process_fn fields interval rest
       (add_point fields ∅ p) (Some (p_time p)) 1 result) =
  result ++ map (fun w => emit aggregation_fn post_process_fn fields w.1 interval
                            (sum_fields fields w.2) (length w.2))
               (anchored_windows fuel interval (p :: rest)).
Proof.
  intros Hnd; induction fuel as [|fuel IH]; intros p rest result Hlen Hall;
    [simpl in Hlen; lia|].
  rewrite agg_loop_take_drop.
  cbn [anchored_windows map].
  set (fits := fun q => Z.ltb (p_time q - p_time p) interval).
  destruct (drop_while fits rest) as [|q r] eqn:Hdrop.
  - rewrite anchored_windows_nil; cbn [map].
    unfold process_last; simpl.
    destruct (bool_decide _) eqn:Hempty.
    + exfalso; apply bool_decide_eq_true in Hempty.
      apply Forall_cons in Hall as [(k & Hk & Hv) _].
      pose proof (fold_add_point_keeps fields (take_while fits rest) (add_point fields ∅ p) k
                    (add_point_adds fields ∅ p k Hk Hv)) as Hs.
      fold fits in Hs; rewrite Hempty, lookup_empty in Hs; inversion Hs; discriminate.
    + simpl; reflexivity.
  - pose proof (drop_while_head fits rest q r Hdrop) as Hq.
    simpl; unfold fits in Hq; rewrite Hq.
    rewrite init_from_point_add by exact Hnd.
    rewrite (IH q r).
    + rewrite <- app_assoc; reflexivity.
    + pose proof (drop_while_length fits rest) as Hl; rewrite Hdrop in Hl; simpl in *; lia.
    + apply Forall_cons in Hall as [_ Hall].
      pose proof (drop_while_Forall fits _ rest Hall) as Hd; rewrite Hdrop in Hd; exact Hd.
Qed.

End AggregationLoop.

(** ** Interval aggregation: claims *)

(** C8 (amended).  For a non-empty series, a valid aggregation function, a
    positive interval, distinct channel names and points that each carry at
    least one channel, [aggregate_by_interval] cuts the points into
    consecutive windows, each opened at its own first point (the first
    window at the first point's timestamp, each later one at the first point
    lying [interval] or more after the current window's opening point), not
    on a grid and not calendar-aligned; it emits one point per window,
    including the trailing one, labelled with noon of the date of
    [window start + interval / 2], whose channels are the sums over the
    window (divided by the window's point count for ["average"]). *)
Theorem aggregate_by_interval_anchored_windows (fd : Aggregation.ForecastData)
    (aggregation_fn : string) (post_process_fn : option (Qc -> Qc)) (interval : Z) :
  (aggregation_fn = "sum" \/ aggregation_fn = "average") ->
  0 < interval ->
  Aggregation.forecast fd <> [] ->
  NoDup (omap (fun x => x) (Aggregation.value_fields fd)) ->
  Forall (fun q => exists k, In (Some k) (Aggregation.value_fields fd) /\
                             is_Some (Aggregation.p_fields q !! k))
    (Aggregation.forecast fd) ->
  Aggregation.aggregate_by_interval fd aggregation_fn post_process_fn interval =
  Some (map (fun w => Aggregation.emit aggregation_fn post_process_fn
                        (Aggregation.value_fields fd) w.1 interval
                        (Aggregation.sum_fields (Aggregation.value_fields fd) w.2)
                        (length w.2))
            (Aggregation.anchored_windows (length (Aggregation.forecast fd)) interval
               (Aggregation.forecast fd))).
Proof.
  intros Hfn Hiv Hne Hnd Hall.
  unfold Aggregation.aggregate_by_interval.
  replace (negb (String.eqb aggregation_fn "sum" || String.eqb aggregation_fn "average"))
    with false by (destruct Hfn as [-> | ->]; reflexivity).
  destruct (Aggregation.forecast fd) as [|p rest] eqn:Hpts; [contradiction|].
  cbn [Aggregation.agg_loop]; rewrite Z.sub_diag.
  replace (Z.ltb 0 interval) with true by (symmetry; apply Z.ltb_lt, Hiv).
  f_equal.
  rewrite (agg_loop_anchored aggregation_fn post_process_fn interval
             (Aggregation.value_fields fd) (length (p :: rest)) Hnd p rest [] (le_n _) Hall).
  reflexivity.
Qed.

Lemma aggregate_by_interval_anchored_windows_witness :
  Aggregation.aggregate_by_interval Examples.series_with_gap "sum" None 3600 =
  Some (map (fun w => Aggregation.emit "sum" None
                        (Aggregation.value_fields Examples.series_with_gap) w.1 3600
                        (Aggregation.sum_fields
                           (Aggregation.value_fields Examples.series_with_gap) w.2)
                        (length w.2))
            (Aggregation.anchored_windows
               (length (Aggregation.forecast Examples.series_with_gap)) 3600
               (Aggregation.forecast Examples.series_with_gap))).
Proof.
  apply aggregate_by_interval_anchored_windows.
  - left; reflexivity.
  - lia.
  - discriminate.
  - vm_compute; repeat constructor; set_solver.
  - unfold Examples.series_with_gap; cbn [Aggregation.forecast].
    repeat (constructor; [exists "med"; split;
              [right; left; reflexivity | vm_compute; eexists; reflexivity] |]).
    constructor.
Defined.

(** C8 (counterexample).  Points at 0 s, 30 min, 70 min and 125 min with a
    one-hour interval lie in three windows of the fixed grid anchored at the
    first timestamp, but the code opens its second window at 70 min and
    puts the 125-min point into it: two aggregated points, not three. *)
Lemma aggregate_by_interval_fixed_grid_counterexample :
  Aggregation.aggregate_by_interval Examples.series_with_gap "sum" None 3600 <>
  Some (Aggregation.aggregate_fixed_windows_spec Examples.series_with_gap "sum" None 3600).
Proof.
  intros H; apply (f_equal (option_map (@length _))) in H.
  vm_compute in H; discriminate H.
Qed.

(** ** Coordinator: facts about the prediction loop *)

Section CoordinatorFacts.
Import Coordinator.
Context {FD : Type} (predict : string -> Z -> gmap string FD -> option FD).

Abbreviation run := (run_prediction_tasks predict).

Lemma prepend_tasks_forecasts (ts : list PredictionTask) (o : tick_outcome FD) :
  outcome_forecasts (prepend_tasks ts o) = outcome_forecasts o.
Proof. induction ts as [|t ts IH]; simpl; [reflexivity|]. rewrite <- IH. by destruct (prepend_tasks ts o). Qed.

Lemma prepend_tasks_tasks (ts : list PredictionTask) (o : tick_outcome FD) :
  outcome_tasks (prepend_tasks ts o) = ts ++ outcome_tasks o.
Proof.
  induction ts as [|t ts IH]; simpl; [reflexivity|]. rewrite <- IH. by destruct (prepend_tasks ts o).
Qed.

Lemma run_app (n : nat) (now : Z) (pre l : list PredictionTask) (fc ex : gmap string FD) :
  run n now (pre ++ l) fc ex =
  match run n now pre fc ex with
  | TickDone fc' ex' ts' => prepend_tasks ts' (run n now l fc' ex')
  | NotReady fc' ts' => NotReady fc' (ts' ++ l)
  end.
Proof.
  revert fc ex; induction pre as [|t pre IH]; intros fc ex; [reflexivity|].
  cbn [app run_prediction_tasks].
  destruct (needs_update now t).
  - destruct (predict (name t) now fc) as [fd|].
    + rewrite IH. by destruct (run n now pre _ _).
    + destruct (negb (Nat.eqb (size fc) n)); [reflexivity|].
      rewrite IH. by destruct (run n now pre fc ex).
  - rewrite IH. by destruct (run n now pre fc ex).
Qed.

Lemma run_tasks_length (n : nat) (now : Z) (l : list PredictionTask) (fc ex : gmap string FD) :
  length (outcome_tasks (run n now l fc ex)) = length l.
Proof.
  revert fc ex; induction l as [|t l IH]; intros fc ex; [reflexivity|].
  cbn [run_prediction_tasks].
  destruct (needs_update now t); [destruct (predict (name t) now fc) as [fd|]|].
  - specialize (IH (<[forecast_key t := fd]> fc) (<[forecast_key t := fd]> ex)).
    destruct (run n now l _ _); simpl in *; lia.
  - destruct (negb (Nat.eqb (size fc) n)); [reflexivity|].
    specialize (IH fc ex); destruct (run n now l fc ex); simpl in *; lia.
  - specialize (IH fc ex); destruct (run n now l fc ex); simpl in *; lia.
Qed.

(** Keys of tasks not in the list are never written. *)
Lemma run_other_key (n : nat) (now : Z) (l : list PredictionTask) (fc ex : gmap string FD)
    (k : string) :
  ~ In k (map forecast_key l) ->
  outcome_forecasts (run n now l fc ex) !! k = fc !! k.
Proof.
  revert fc ex; induction l as [|t l IH]; intros fc ex Hk; [reflexivity|].
  simpl in Hk; cbn [run_prediction_tasks].
  assert (Hp : forall o : tick_outcome FD, outcome_forecasts (prepend t o) = outcome_forecasts o)
    by (intros []; reflexivity).
  assert (Hp' : forall o : tick_outcome FD,
             outcome_forecasts (prepend (mark_updated now t) o) = outcome_forecasts o)
    by (intros []; reflexivity).
  destruct (needs_update now t); [destruct (predict (name t) now fc) as [fd|]|].
  - rewrite Hp', IH by tauto. rewrite lookup_insert_ne; [reflexivity|]. intros E; apply Hk; left; exact E.
  - destruct (negb (Nat.eqb (size fc) n)); [reflexivity|].
    rewrite Hp, IH by tauto; reflexivity.
  - rewrite Hp, IH by tauto; reflexivity.
Qed.

(** Only keys of tasks are ever stored. *)
Lemma run_keys_in (n : nat) (now : Z) (l : list PredictionTask) (fc ex : gmap string FD)
    (K : list string) :
  (forall k, is_Some (fc !! k) -> In k K) ->
  (forall t, In t l -> In (forecast_key t) K) ->
  forall k, is_Some (outcome_forecasts (run n now l fc ex) !! k) -> In k K.
Proof.
  revert fc ex; induction l as [|t l IH]; intros fc ex Hfc Hl; [exact Hfc|].
  cbn [run_prediction_tasks].
  assert (Hp : forall o : tick_outcome FD, outcome_forecasts (prepend t o) = outcome_forecasts o)
    by (intros []; reflexivity).
  assert (Hp' : forall o : tick_outcome FD,
             outcome_forecasts (prepend (mark_updated now t) o) = outcome_forecasts o)
    by (intros []; reflexivity).
  destruct (needs_update now t); [destruct (predict (name t) now fc) as [fd|]|].
  - rewrite Hp'; apply IH; [|intros t' Ht'; apply Hl; right; exact Ht'].
    intros k Hk; destruct (decide (forecast_key t = k)) as [<-|Hne];
      [apply Hl; left; reflexivity|].
    rewrite lookup_insert_ne in Hk by exact Hne; apply Hfc, Hk.
  - destruct (negb (Nat.eqb (size fc) n)); [exact Hfc|].
    rewrite Hp; apply IH; [exact Hfc | intros t' Ht'; apply Hl; right; exact Ht'].
  - rewrite Hp; apply IH; [exact Hfc | intros t' Ht'; apply Hl; right; exact Ht'].
Qed.

(** With distinct keys and only task keys stored, [len(self.forecasts)]
    equals the number of tasks exactly when every kind has a result. *)
Lemma size_forecasts_full (fc : gmap string FD) (K : list string) :
  NoDup K ->
  (forall k, is_Some (fc !! k) -> In k K) ->
  (size fc = length K <-> forall k, In k K -> is_Some (fc !! k)).
Proof.
  intros Hnd Hdom.
  assert (Hsub : dom fc ⊆ (list_to_set K : gset string)).
  { intros k Hk; apply elem_of_dom in Hk; apply elem_of_list_to_set, list_elem_of_In, Hdom, Hk. }
  assert (Hsz : size (list_to_set K : gset string) = length K) by (apply size_list_to_set, Hnd).
  rewrite <- size_dom; split.
  - intros Hs k Hk.
    assert (Heq : dom fc = (list_to_set K : gset string))
      by (apply set_subseteq_size_eq; [exact Hsub | lia]).
    apply elem_of_dom; rewrite Heq; apply elem_of_list_to_set, list_elem_of_In, Hk.
  - intros Hall.
    assert (Heq : dom fc = (list_to_set K : gset string)).
    { apply set_eq; intros k; split; [apply Hsub|].
      intros Hk; apply elem_of_list_to_set, list_elem_of_In in Hk; apply elem_of_dom, Hall, Hk. }
    rewrite Heq; exact Hsz.
Qed.

Lemma prepend_tasks_not_ready (ts : list PredictionTask) (fc : gmap string FD)
    (l : list PredictionTask) :
  prepend_tasks ts (NotReady fc l) = NotReady fc (ts ++ l).
Proof. induction ts as [|t ts IH]; simpl; [reflexivity|]. rewrite IH; reflexivity. Qed.

Lemma key_not_in_neighbours (pre post : list PredictionTask) (t : PredictionTask) :
  NoDup (map forecast_key (pre ++ t :: post)) ->
  ~ In (forecast_key t) (map forecast_key pre) /\ ~ In (forecast_key t) (map forecast_key post).
Proof.
  rewrite map_app; cbn [map]; intros Hnd.
  apply NoDup_ListNoDup, NoDup_remove_2 in Hnd.
  split; intros Hin; apply Hnd, in_or_app; [left | right]; exact Hin.
Qed.

Lemma needs_update_later (now now' : Z) (t : PredictionTask) :
  needs_update now t = true -> now <= now' -> needs_update now' t = true.
Proof.
  unfold needs_update; destruct (last_run t) as [lr|]; [|reflexivity].
  rewrite !Z.leb_le; lia.
Qed.

Lemma prepend_forecasts (t : PredictionTask) (o : tick_outcome FD) :
  outcome_forecasts (prepend t o) = outcome_forecasts o.
Proof. by destruct o. Qed.

Lemma prepend_outcome_tasks (t : PredictionTask) (o : tick_outcome FD) :
  outcome_tasks (prepend t o) = t :: outcome_tasks o.
Proof. by destruct o. Qed.

Lemma async_split (now : Z) (st : coord_state) (pre post : list PredictionTask)
    (t : PredictionTask) (fc' ex' : gmap string FD) (pre' : list PredictionTask) :
  prediction_tasks st = pre ++ t :: post ->
  run (length (prediction_tasks st)) now pre (forecasts st) ∅ = TickDone fc' ex' pre' ->
  async_update_data predict now st =
  prepend_tasks pre' (run (length (prediction_tasks st)) now (t :: post) fc' ex').
Proof.
  intros Hsplit Hpre; unfold async_update_data.
  revert Hpre; generalize (length (prediction_tasks st)) as N; intros N Hpre.
  rewrite Hsplit, run_app, Hpre; reflexivity.
Qed.

End CoordinatorFacts.

(** ** Coordinator: claims *)

(** C4.  Consider a tick in which the tasks before [t] have run (leaving
    [self.forecasts] = [fc']) and the due task [t] raises.  If some forecast
    kind has no result in [fc'] (bootstrap), the tick raises
    [ConfigEntryNotReady]; if every kind has a result, the failure is only
    logged and the tick goes on with the remaining tasks. *)
Theorem coordinator_failure_policy {FD : Type}
    (predict : string -> Z -> gmap string FD -> option FD) (now : Z)
    (st : Coordinator.coord_state (FD := FD)) (pre post : list Coordinator.PredictionTask)
    (t : Coordinator.PredictionTask) (fc' ex' : gmap string FD)
    (pre' : list Coordinator.PredictionTask) :
  NoDup (map Coordinator.forecast_key (Coordinator.prediction_tasks st)) ->
  (forall k, is_Some (Coordinator.forecasts st !! k) ->
             In k (map Coordinator.forecast_key (Coordinator.prediction_tasks st))) ->
  Coordinator.prediction_tasks st = pre ++ t :: post ->
  Coordinator.run_prediction_tasks predict (length (Coordinator.prediction_tasks st)) now pre
    (Coordinator.forecasts st) ∅ = Coordinator.TickDone fc' ex' pre' ->
  Coordinator.needs_update now t = true ->
  predict (Coordinator.name t) now fc' = None ->
  ((exists k, In k (map Coordinator.forecast_key (Coordinator.prediction_tasks st)) /\
              fc' !! k = None) ->
   Coordinator.async_update_data predict now st = Coordinator.NotReady fc' (pre' ++ t :: post)) /\
  ((forall k, In k (map Coordinator.forecast_key (Coordinator.prediction_tasks st)) ->
              is_Some (fc' !! k)) ->
   Coordinator.async_update_data predict now st =
   Coordinator.prepend_tasks pre'
     (Coordinator.prepend t
        (Coordinator.run_prediction_tasks predict (length (Coordinator.prediction_tasks st))
           now post fc' ex'))).
Proof.
  intros Hnd Hdom Hsplit Hpre Hdue Hfail.
  assert (Hdom' : forall k, is_Some (fc' !! k) ->
                  In k (map Coordinator.forecast_key (Coordinator.prediction_tasks st))).
  { change fc' with (Coordinator.outcome_forecasts (Coordinator.TickDone fc' ex' pre')).
    rewrite <- Hpre; apply run_keys_in; [exact Hdom|].
    intros t' Ht'; rewrite Hsplit; apply in_map, in_or_app; left; exact Ht'. }
  pose proof (size_forecasts_full fc' _ Hnd Hdom') as Hsize; rewrite length_map in Hsize.
  unfold Coordinator.async_update_data.
  revert Hpre Hsize; generalize (length (Coordinator.prediction_tasks st)) as N;
    intros N Hpre Hsize.
  assert (Hrun : Coordinator.run_prediction_tasks predict N now (Coordinator.prediction_tasks st)
                  (Coordinator.forecasts st) ∅ =
                Coordinator.prepend_tasks pre'
                  (Coordinator.run_prediction_tasks predict N now (t :: post) fc' ex')).
  { rewrite Hsplit, run_app, Hpre; reflexivity. }
  rewrite Hrun; cbn [Coordinator.run_prediction_tasks]; rewrite Hdue, Hfail.
  split.
  - intros (k & Hk & Hnone).
    destruct (Nat.eqb (size fc') N) eqn:Hs; simpl.
    + apply Nat.eqb_eq in Hs. destruct (proj1 Hsize Hs k Hk) as [v Hv]; congruence.
    + apply prepend_tasks_not_ready.
  - intros Hall.
    apply Hsize, Nat.eqb_eq in Hall. rewrite Hall; reflexivity.
Qed.

Lemma coordinator_failure_policy_witness :
  exists fc' ex' pre',
    Coordinator.run_prediction_tasks Examples.grid_fails 4 0
      [Examples.prediction_task "Solar prediction" "forecast_data_pv_power" 900;
       Examples.prediction_task "Consumption prediction" "forecast_data_power_consumption" 900;
       Examples.prediction_task "Battery prediction" "forecast_data_battery" 60]
      ∅ ∅ = Coordinator.TickDone fc' ex' pre' /\
    Coordinator.async_update_data Examples.grid_fails 0 Examples.bootstrap_state =
    Coordinator.NotReady fc'
      (pre' ++ [Examples.prediction_task "Grid prediction" "forecast_data_grid" 60]).
Proof.
  do 3 eexists; split; [reflexivity|].
  refine (proj1 (coordinator_failure_policy Examples.grid_fails 0 Examples.bootstrap_state
           [Examples.prediction_task "Solar prediction" "forecast_data_pv_power" 900;
            Examples.prediction_task "Consumption prediction" "forecast_data_power_consumption" 900;
            Examples.prediction_task "Battery prediction" "forecast_data_battery" 60]
           [] (Examples.prediction_task "Grid prediction" "forecast_data_grid" 60)
           _ _ _ _ _ _ _ _ _) _).
  - apply NoDup_ListNoDup; vm_compute; repeat constructor; simpl; intuition discriminate.
  - intros k Hk; vm_compute in Hk; destruct Hk as [? Hk]; discriminate Hk.
  - reflexivity.
  - reflexivity.
  - reflexivity.
  - reflexivity.
  - exists "forecast_data_grid"; split; [vm_compute; tauto | reflexivity].
Defined.

(** C7.  In a tick where the due task [t] runs after the tasks before it
    (which left [self.forecasts] = [fc']): on success its result is stored
    under its forecast kind and its [last_run] is stamped with [now]; on a
    failure when every kind already has a result, the stored result of its
    kind and its [last_run] are left as they were before the tick, so it is
    still due at every later time. *)
Theorem coordinator_task_bookkeeping {FD : Type}
    (predict : string -> Z -> gmap string FD -> option FD) (now : Z)
    (st : Coordinator.coord_state (FD := FD)) (pre post : list Coordinator.PredictionTask)
    (t : Coordinator.PredictionTask) (fc' ex' : gmap string FD)
    (pre' : list Coordinator.PredictionTask) :
  NoDup (map Coordinator.forecast_key (Coordinator.prediction_tasks st)) ->
  (forall k, is_Some (Coordinator.forecasts st !! k) ->
             In k (map Coordinator.forecast_key (Coordinator.prediction_tasks st))) ->
  Coordinator.prediction_tasks st = pre ++ t :: post ->
  Coordinator.run_prediction_tasks predict (length (Coordinator.prediction_tasks st)) now pre
    (Coordinator.forecasts st) ∅ = Coordinator.TickDone fc' ex' pre' ->
  Coordinator.needs_update now t = true ->
  (forall fd, predict (Coordinator.name t) now fc' = Some fd ->
   Coordinator.outcome_forecasts (Coordinator.async_update_data predict now st)
     !! Coordinator.forecast_key t = Some fd /\
   Coordinator.outcome_tasks (Coordinator.async_update_data predict now st) !! length pre =
     Some (Coordinator.mark_updated now t)) /\
  (predict (Coordinator.name t) now fc' = None ->
   (forall k, In k (map Coordinator.forecast_key (Coordinator.prediction_tasks st)) ->
              is_Some (fc' !! k)) ->
   Coordinator.outcome_forecasts (Coordinator.async_update_data predict now st)
     !! Coordinator.forecast_key t = Coordinator.forecasts st !! Coordinator.forecast_key t /\
   Coordinator.outcome_tasks (Coordinator.async_update_data predict now st) !! length pre =
     Some t /\
   forall now', now <= now' -> Coordinator.needs_update now' t = true).
Proof.
  intros Hnd Hdom Hsplit Hpre Hdue.
  pose proof Hnd as Hnd'; rewrite Hsplit in Hnd'.
  destruct (key_not_in_neighbours pre post t Hnd') as [Hkpre Hkpost].
  assert (Hlen : length pre' = length pre).
  { change pre' with (Coordinator.outcome_tasks (Coordinator.TickDone fc' ex' pre')).
    rewrite <- Hpre; apply run_tasks_length. }
  assert (Hfc : fc' !! Coordinator.forecast_key t =
                Coordinator.forecasts st !! Coordinator.forecast_key t).
  { change fc' with (Coordinator.outcome_forecasts (Coordinator.TickDone fc' ex' pre')).
    rewrite <- Hpre; apply run_other_key, Hkpre. }
  rewrite (async_split predict now st pre post t fc' ex' pre' Hsplit Hpre).
  cbn [Coordinator.run_prediction_tasks]; rewrite Hdue.
  split.
  - intros fd Hok; rewrite Hok.
    rewrite prepend_tasks_forecasts, prepend_forecasts, run_other_key by exact Hkpost.
    rewrite prepend_tasks_tasks, prepend_outcome_tasks.
    split; [apply lookup_insert_eq | apply list_lookup_middle; symmetry; exact Hlen].
  - intros Hfail Hall.
    assert (Hdom' : forall k, is_Some (fc' !! k) ->
                    In k (map Coordinator.forecast_key (Coordinator.prediction_tasks st))).
    { change fc' with (Coordinator.outcome_forecasts (Coordinator.TickDone fc' ex' pre')).
      rewrite <- Hpre; apply run_keys_in; [exact Hdom|].
      intros t' Ht'; rewrite Hsplit; apply in_map, in_or_app; left; exact Ht'. }
    pose proof (size_forecasts_full fc' _ Hnd Hdom') as Hsize; rewrite length_map in Hsize.
    rewrite Hfail.
    assert (Hfull : Nat.eqb (size fc') (length (Coordinator.prediction_tasks st)) = true).
    { apply Nat.eqb_eq, Hsize, Hall. }
    rewrite Hfull; cbn [negb].
    rewrite prepend_tasks_forecasts, prepend_forecasts, run_other_key by exact Hkpost.
    rewrite prepend_tasks_tasks, prepend_outcome_tasks.
    split; [exact Hfc | split; [apply list_lookup_middle; symmetry; exact Hlen |]].
    intros now' Hle; apply (needs_update_later now); assumption.
Qed.

Lemma coordinator_task_bookkeeping_witness :
  exists fc' ex' pre',
    Coordinator.run_prediction_tasks Examples.grid_fails 4 0
      [Examples.prediction_task "Solar prediction" "forecast_data_pv_power" 900;
       Examples.prediction_task "Consumption prediction" "forecast_data_power_consumption" 900;
       Examples.prediction_task "Battery prediction" "forecast_data_battery" 60]
      (Coordinator.forecasts Examples.steady_state) ∅ = Coordinator.TickDone fc' ex' pre' /\
    (Coordinator.outcome_forecasts (Coordinator.async_update_data Examples.grid_fails 0
       Examples.steady_state) !! "forecast_data_grid" =
     Coordinator.forecasts Examples.steady_state !! "forecast_data_grid" /\
     Coordinator.outcome_tasks (Coordinator.async_update_data Examples.grid_fails 0
       Examples.steady_state) !! 3%nat =
     Some (Examples.prediction_task "Grid prediction" "forecast_data_grid" 60) /\
     forall now', 0 <= now' ->
       Coordinator.needs_update now' (Examples.prediction_task "Grid prediction" "forecast_data_grid" 60)
       = true).
Proof.
  do 3 eexists; split; [reflexivity|].
  refine (proj2 (coordinator_task_bookkeeping Examples.grid_fails 0 Examples.steady_state
           [Examples.prediction_task "Solar prediction" "forecast_data_pv_power" 900;
            Examples.prediction_task "Consumption prediction" "forecast_data_power_consumption" 900;
            Examples.prediction_task "Battery prediction" "forecast_data_battery" 60]
           [] (Examples.prediction_task "Grid prediction" "forecast_data_grid" 60)
           _ _ _ _ _ _ _ _) _ _).
  - apply NoDup_ListNoDup; vm_compute; repeat constructor; simpl; intuition discriminate.
  - intros k [v Hk]; apply elem_of_list_to_map_2 in Hk.
    repeat (apply elem_of_cons in Hk as [Hk|Hk]; [injection Hk as -> ->; simpl; tauto|]).
    apply elem_of_nil in Hk; destruct Hk.
  - reflexivity.
  - reflexivity.
  - reflexivity.
  - reflexivity.
  - intros k Hk; simpl in Hk.
    repeat (destruct Hk as [<-|Hk]; [eexists; reflexivity|]); destruct Hk.
Defined.

(** X1.  When the day counts are within the range of [timedelta],
    [days_forward >= 1], and the midnights [days_back] days before [now]'s
    midnight and [days_forward - days_back] days after it are within the
    range of [datetime], [get_prediction_window] succeeds; its window spans
    [days_forward] days minus one second and opens one second after a
    midnight; with [PREDICT_DAYS_BACK] = 0 it contains [now] exactly when
    [now] is at least one second past its midnight. *)
Theorem prediction_window_bounds (now days_back days_forward : Z) :
  1 <= days_forward <= 999999999 ->
  Z.abs days_back <= 999999999 ->
  Schedule.DATETIME_MIN_US <=
    now - now mod Schedule.US_PER_DAY - days_back * Schedule.US_PER_DAY ->
  now - now mod Schedule.US_PER_DAY + (days_forward - days_back) * Schedule.US_PER_DAY <=
    Schedule.DATETIME_MAX_US ->
  exists prediction_from prediction_to,
    Schedule.get_prediction_window now days_back days_forward =
      Some (prediction_from, prediction_to) /\
    prediction_to - prediction_from =
      days_forward * Schedule.US_PER_DAY - Schedule.US_PER_SECOND /\
    prediction_from mod Schedule.US_PER_DAY = Schedule.US_PER_SECOND /\
    (days_back = Schedule.PREDICT_DAYS_BACK ->
     (prediction_from <= now <= prediction_to <->
      Schedule.US_PER_SECOND <= now mod Schedule.US_PER_DAY)).
Proof.
  intros Hf Hb Hlo Hhi.
  unfold Schedule.get_prediction_window, Schedule.timedelta_days, Schedule.dt_add in *.
  unfold Schedule.DATETIME_MIN_US, Schedule.DATETIME_MAX_US, Schedule.US_PER_DAY,
    Schedule.US_PER_SECOND, Schedule.PREDICT_DAYS_BACK in *.
  pose proof (Z.mod_pos_bound now (86400 * 1000000) ltac:(lia)) as Hm.
  pose proof (Z.div_mod now (86400 * 1000000) ltac:(lia)) as Hd.
  revert Hlo Hhi Hm Hd.
  generalize (now mod (86400 * 1000000)) (now / (86400 * 1000000)); intros r q Hlo Hhi Hm Hd.
  repeat (match goal with
          | |- context [Z.leb ?a ?b] =>
              replace (Z.leb a b) with true by (symmetry; apply Z.leb_le; lia)
          end; simpl).
  eexists _, _; split; [reflexivity|].
  split; [lia|]; split.
  - symmetry; apply Z.mod_unique with (q - days_back); [left|]; lia.
  - intros ->; lia.
Qed.

Lemma prediction_window_bounds_witness :
  exists prediction_from prediction_to,
    Schedule.get_prediction_window (20000 * Schedule.US_PER_DAY + 43200 * Schedule.US_PER_SECOND)
      Schedule.PREDICT_DAYS_BACK Schedule.PREDICT_DAYS_FORWARD =
      Some (prediction_from, prediction_to) /\
    prediction_to - prediction_from =
      Schedule.PREDICT_DAYS_FORWARD * Schedule.US_PER_DAY - Schedule.US_PER_SECOND /\
    prediction_from mod Schedule.US_PER_DAY = Schedule.US_PER_SECOND /\
    (Schedule.PREDICT_DAYS_BACK = Schedule.PREDICT_DAYS_BACK ->
     (prediction_from <= 20000 * Schedule.US_PER_DAY + 43200 * Schedule.US_PER_SECOND
        <= prediction_to <->
      Schedule.US_PER_SECOND <=
        (20000 * Schedule.US_PER_DAY + 43200 * Schedule.US_PER_SECOND) mod Schedule.US_PER_DAY)).
Proof.
  apply prediction_window_bounds; vm_compute; try split; intros H; discriminate H.
Defined.

(** X2.  Once [needs_training] reports a model as due, it stays due at every
    later time as long as the training state is unchanged. *)
Theorem needs_training_monotone (task : Schedule.TrainingTask) (is_trained : bool)
    (last_trained : option Z) (now now' : Z) :
  now <= now' ->
  Schedule.needs_training task is_trained last_trained now = true ->
  Schedule.needs_training task is_trained last_trained now' = true.
Proof.
  unfold Schedule.needs_training; intros Hle.
  destruct is_trained; [|reflexivity]; destruct last_trained as [lt|]; [|reflexivity].
  simpl; rewrite !Z.ltb_lt; lia.
Qed.

Lemma needs_training_monotone_witness :
  Schedule.needs_training (Schedule.MkTrainingTask "Solar" 86400) true (Some 0) 200000 = true.
Proof.
  apply (needs_training_monotone (Schedule.MkTrainingTask "Solar" 86400) true (Some 0) 100000 200000);
    [lia | reflexivity].
Defined.



Section CoordinatorMore.
Import Coordinator.
Context {FD : Type} (predict : string -> Z -> gmap string FD -> option FD).

(** The tick rewrites a task only by stamping it, and only when it was due. *)
Lemma run_tasks_stamped (n : nat) (now : Z) (l : list PredictionTask) (fc ex : gmap string FD) :
  Forall2 (fun t t' => t' = t \/ (needs_update now t = true /\ t' = mark_updated now t))
    l (outcome_tasks (run_prediction_tasks predict n now l fc ex)).
Proof.
  revert fc ex; induction l as [|t l IH]; intros fc ex; [constructor|].
  cbn [run_prediction_tasks].
  destruct (needs_update now t) eqn:Hdue.
  - destruct (predict (name t) now fc) as [fd|].
    + rewrite prepend_outcome_tasks; constructor; [right; split; auto | apply IH].
    + destruct (negb _); simpl.
      * constructor; [left; reflexivity|].
        apply Forall_Forall2_diag, Forall_forall; intros; left; reflexivity.
      * rewrite prepend_outcome_tasks; constructor; [left; reflexivity | apply IH].
  - rewrite prepend_outcome_tasks; constructor; [left; reflexivity | apply IH].
Qed.

Lemma run_executed_stored (n : nat) (now : Z) (l : list PredictionTask) (fc ex : gmap string FD) :
  (forall k v, ex !! k = Some v -> fc !! k = Some v) ->
  match run_prediction_tasks predict n now l fc ex with
  | TickDone fc' ex' _ =>
      forall k v, ex' !! k = Some v ->
        fc' !! k = Some v /\
        (ex !! k = Some v \/
         exists t, In t l /\ forecast_key t = k /\ needs_update now t = true)
  | NotReady _ _ => True
  end.
Proof.
  revert fc ex; induction l as [|t l IH]; intros fc ex Hinv; cbn [run_prediction_tasks].
  - intros k v Hk; split; [apply Hinv, Hk | left; exact Hk].
  - destruct (needs_update now t) eqn:Hdue.
    + destruct (predict (name t) now fc) as [fd|].
      * specialize (IH (<[forecast_key t := fd]> fc) (<[forecast_key t := fd]> ex)).
        destruct (run_prediction_tasks predict n now l _ _) as [fc' ex' ts'|]; simpl; [|exact I].
        intros k v Hk.
        assert (Hinv' : forall k' v', <[forecast_key t := fd]> ex !! k' = Some v' ->
                          <[forecast_key t := fd]> fc !! k' = Some v').
        { intros k' v'; destruct (decide (k' = forecast_key t)) as [->|Hne].
          - rewrite !lookup_insert_eq; auto.
          - rewrite !lookup_insert_ne by congruence; apply Hinv. }
        destruct (IH Hinv' k v Hk) as [Hfc Hor].
        split; [exact Hfc|].
        destruct Hor as [Hex | (t' & Hin & Hkey & Hd)].
        -- destruct (decide (k = forecast_key t)) as [->|Hne].
           ++ right; exists t; split; [left; reflexivity | split; [reflexivity | exact Hdue]].
           ++ rewrite lookup_insert_ne in Hex by congruence; left; exact Hex.
        -- right; exists t'; split; [right; exact Hin | split; assumption].
      * destruct (negb _); simpl; [exact I|].
        specialize (IH fc ex Hinv).
        destruct (run_prediction_tasks predict n now l fc ex); simpl; [|exact I].
        intros k v Hk; destruct (IH k v Hk) as [Hfc [Hex | (t' & Hin & Hkey & Hd)]];
          split; auto; right; exists t'; split; [right; exact Hin | split; assumption].
    + specialize (IH fc ex Hinv).
      destruct (run_prediction_tasks predict n now l fc ex); simpl; [|exact I].
      intros k v Hk; destruct (IH k v Hk) as [Hfc [Hex | (t' & Hin & Hkey & Hd)]];
        split; auto; right; exists t'; split; [right; exact Hin | split; assumption].
Qed.

Lemma run_nothing_due (n : nat) (now : Z) (l : list PredictionTask) (fc ex : gmap string FD) :
  Forall (fun t => needs_update now t = false) l ->
  run_prediction_tasks predict n now l fc ex = TickDone fc ex l.
Proof.
  induction l as [|t l IH]; intros Hl; [reflexivity|].
  apply Forall_cons in Hl as [Ht Hl]; cbn [run_prediction_tasks].
  rewrite Ht, IH by exact Hl; reflexivity.
Qed.

End CoordinatorMore.

(** X3.  A coordinator tick changes a prediction task only by stamping it with
    the current time, and only when the task was due; every other task is
    returned unchanged, in the same order. *)
Theorem tick_only_stamps_due_tasks {FD : Type}
    (predict : string -> Z -> gmap string FD -> option FD) (now : Z)
    (st : Coordinator.coord_state (FD := FD)) :
  Forall2 (fun t t' => t' = t \/
             (Coordinator.needs_update now t = true /\ t' = Coordinator.mark_updated now t))
    (Coordinator.prediction_tasks st)
    (Coordinator.outcome_tasks (Coordinator.async_update_data predict now st)).
Proof. apply run_tasks_stamped. Qed.

(** X4.  Every result that a completed tick reports as executed is also
    stored among the tick's forecasts, under the key of a task that was due
    at this tick. *)
Theorem tick_executed_are_stored {FD : Type}
    (predict : string -> Z -> gmap string FD -> option FD) (now : Z)
    (st : Coordinator.coord_state (FD := FD)) (fc ex : gmap string FD)
    (ts : list Coordinator.PredictionTask) :
  Coordinator.async_update_data predict now st = Coordinator.TickDone fc ex ts ->
  forall k v, ex !! k = Some v ->
    fc !! k = Some v /\
    exists t, In t (Coordinator.prediction_tasks st) /\ Coordinator.forecast_key t = k /\
              Coordinator.needs_update now t = true.
Proof.
  intros Hrun k v Hk.
  pose proof (run_executed_stored predict (length (Coordinator.prediction_tasks st)) now
                (Coordinator.prediction_tasks st) (Coordinator.forecasts st) ∅) as H.
  unfold Coordinator.async_update_data in Hrun; rewrite Hrun in H.
  destruct (H ltac:(intros k' v' Hk'; rewrite lookup_empty in Hk'; discriminate) k v Hk)
    as [Hfc [Hex | Ht]]; [rewrite lookup_empty in Hex; discriminate | split; assumption].
Qed.

Lemma tick_executed_are_stored_witness :
  exists fc ex ts,
    Coordinator.async_update_data Examples.grid_fails 0 Examples.steady_state =
      Coordinator.TickDone fc ex ts /\
    fc !! "forecast_data_battery" = Some 1%nat /\
    exists t, In t (Coordinator.prediction_tasks Examples.steady_state) /\
              Coordinator.forecast_key t = "forecast_data_battery" /\
              Coordinator.needs_update 0 t = true.
Proof.
  do 3 eexists; split; [reflexivity|].
  apply (tick_executed_are_stored Examples.grid_fails 0 Examples.steady_state _ _ _ eq_refl
           "forecast_data_battery" 1%nat).
  reflexivity.
Defined.

(** X5.  When no task is due, a tick runs no prediction: it completes with
    the stored forecasts unchanged, no executed result and the tasks
    unchanged. *)
Theorem tick_nothing_due {FD : Type}
    (predict : string -> Z -> gmap string FD -> option FD) (now : Z)
    (st : Coordinator.coord_state (FD := FD)) :
  Forall (fun t => Coordinator.needs_update now t = false) (Coordinator.prediction_tasks st) ->
  Coordinator.async_update_data predict now st =
  Coordinator.TickDone (Coordinator.forecasts st) ∅ (Coordinator.prediction_tasks st).
Proof. intros H; apply run_nothing_due, H. Qed.

Lemma tick_nothing_due_witness :
  Coordinator.async_update_data Examples.grid_fails 50
    (Coordinator.MkCoordState (Coordinator.forecasts Examples.steady_state)
       (map (Coordinator.mark_updated 0) Examples.example_tasks)) =
  Coordinator.TickDone (Coordinator.forecasts Examples.steady_state) ∅
    (map (Coordinator.mark_updated 0) Examples.example_tasks).
Proof.
  apply (tick_nothing_due Examples.grid_fails 50
           (Coordinator.MkCoordState (Coordinator.forecasts Examples.steady_state)
              (map (Coordinator.mark_updated 0) Examples.example_tasks))).
  repeat (constructor; [reflexivity|]); constructor.
Defined.



Section SensorFacts.
Import Aggregation Sensors.

Lemma last_past_point_split (now : Z) (pre post : list fpoint) (acc : option fpoint) :
  Forall (fun p => p_time p <= now) pre ->
  match post with [] => True | q :: _ => now < p_time q end ->
  last_past_point now (pre ++ post) acc =
  match last pre with Some p => Some p | None => acc end.
Proof.
  intros Hpre Hpost; revert acc; induction pre as [|p pre IH]; intros acc.
  - destruct post as [|q post]; simpl; [reflexivity|].
    apply Z.ltb_lt in Hpost; rewrite Hpost; reflexivity.
  - apply Forall_cons in Hpre as [Hp Hpre]; simpl.
    assert (Hn : Z.ltb now (p_time p) = false) by (apply Z.ltb_ge; exact Hp).
    rewrite Hn, IH by exact Hpre.
    destruct pre as [|p' pre]; [reflexivity|].
    simpl; destruct (last (p' :: pre)) eqn:E; [reflexivity|].
    apply last_None in E; discriminate E.
Qed.

(** A filter by a weaker predicate keeps a sub-list of the med values. *)
Lemma mapM_filter_sublist (fd : ForecastData) (P1 P2 : fpoint -> bool) (l : list fpoint)
    (vs : list Qc) :
  (forall p, P2 p = true -> P1 p = true) ->
  mapM (med_value fd) (List.filter P1 l) = Some vs ->
  exists vs', mapM (med_value fd) (List.filter P2 l) = Some vs' /\ sublist vs' vs.
Proof.
  intros Himp; revert vs; induction l as [|p l IH]; intros vs Hm.
  - simpl in Hm; injection Hm as <-; exists []; split; [reflexivity | constructor].
  - simpl in Hm |- *.
    destruct (P1 p) eqn:H1.
    + simpl in Hm; destruct (med_value fd p) as [v|] eqn:Hv; [|discriminate Hm]; simpl in Hm.
      destruct (mapM (med_value fd) (List.filter P1 l)) as [vs1|] eqn:Hr; [|discriminate Hm].
      simpl in Hm; injection Hm as <-.
      destruct (IH vs1 eq_refl) as (vs' & Hm' & Hsub).
      destruct (P2 p); simpl.
      * rewrite Hv, Hm'; simpl; exists (v :: vs'); split; [reflexivity | constructor; exact Hsub].
      * exists vs'; split; [exact Hm' | constructor; exact Hsub].
    + assert (H2 : P2 p = false) by (destruct (P2 p) eqn:E; [rewrite (Himp p E) in H1|]; congruence).
      rewrite H2; apply IH, Hm.
Qed.
End SensorFacts.

Lemma py_round_mono (x y : Qc) : (x <= y)%Qc -> Sensors.py_round x <= Sensors.py_round y.
Proof.
  unfold Sensors.py_round, Qcle; intros Hle.
  pose proof (Qfloor_resp_le _ _ Hle) as Hf.
  destruct (Z.eq_dec (Qfloor (this x)) (Qfloor (this y))) as [Heq|Hne].
  - rewrite <- Heq.
    destruct (Qcompare_spec (this x - inject_Z (Qfloor (this x))) (1 # 2)) as [Ex|Ex|Ex];
    destruct (Qcompare_spec (this y - inject_Z (Qfloor (this x))) (1 # 2)) as [Ey|Ey|Ey];
    try destruct (Z.even (Qfloor (this x))); try lia; exfalso; lra.
  - destruct (Qcompare (this x - inject_Z (Qfloor (this x))) (1 # 2));
    destruct (Qcompare (this y - inject_Z (Qfloor (this y))) (1 # 2));
    try destruct (Z.even (Qfloor (this x))); try destruct (Z.even (Qfloor (this y))); lia.
Qed.


Lemma fold_Qcplus_shift (l : list Qc) (a : Qc) :
  fold_left Qcplus l a = (a + fold_left Qcplus l 0)%Qc.
Proof.
  revert a; induction l as [|x l IH]; intros a; simpl; [ring|].
  rewrite (IH (a + x)%Qc), (IH (0 + x)%Qc); ring.
Qed.

Lemma py_sum_cons (x : Qc) (l : list Qc) : Sensors.py_sum (x :: l) = (x + Sensors.py_sum l)%Qc.
Proof. unfold Sensors.py_sum; simpl; rewrite fold_Qcplus_shift; ring. Qed.

Lemma py_sum_sublist (l1 l2 : list Qc) :
  sublist l1 l2 -> Forall (fun v => 0 <= v)%Qc l2 ->
  (Sensors.py_sum l1 <= Sensors.py_sum l2)%Qc.
Proof.
  induction 1 as [|x l1 l2 _ IH|x l1 l2 _ IH]; intros Hl2; [apply Qcle_refl| |].
  - apply Forall_cons in Hl2 as [_ Hl2]; rewrite !py_sum_cons.
    apply Qcplus_le_compat; [apply Qcle_refl | apply IH, Hl2].
  - apply Forall_cons in Hl2 as [Hx Hl2]; rewrite py_sum_cons.
    rewrite <- (Qcplus_0_l (Sensors.py_sum l1)).
    apply Qcplus_le_compat; [exact Hx | apply IH, Hl2].
Qed.

Lemma mapM_Forall_values {A B} (f : A -> option B) (P : B -> Prop) (l : list A) (vs : list B) :
  mapM f l = Some vs -> Forall (fun x => forall v, f x = Some v -> P v) l -> Forall P vs.
Proof.
  revert vs; induction l as [|x l IH]; intros vs Hm Hl; simpl in Hm.
  - injection Hm as <-; constructor.
  - apply Forall_cons in Hl as [Hx Hl].
    destruct (mapM f l) as [vs1|] eqn:Hr; [|destruct (f x); discriminate Hm].
    destruct (f x) as [v|]; [|discriminate Hm]; simpl in Hm; injection Hm as <-.
    constructor; [apply Hx; reflexivity | apply IH; auto].
Qed.

Lemma Forall_List_filter {A} (P : A -> Prop) (f : A -> bool) (l : list A) :
  Forall P l -> Forall P (List.filter f l).
Proof.
  rewrite !Forall_forall; intros H x Hx.
  apply list_elem_of_In, filter_In in Hx as [Hx _]; apply H, list_elem_of_In, Hx.
Qed.

Lemma Qcdiv4_mono (a b : Qc) : (a <= b)%Qc -> (a / qc 4 <= b / qc 4)%Qc.
Proof.
  intros H; unfold Qcdiv; apply Qcmult_le_compat_r; [exact H|].
  vm_compute; intros E; discriminate E.
Qed.

(** X7.  Whenever today's med records can be read, the records of the rest of
    today can be read too, and they form a sub-list of today's records. *)
Theorem records_rest_of_today_sublist (fd : Aggregation.ForecastData) (now : Z)
    (vs : list Qc) :
  Sensors.get_forecast_records_for_today fd now = Some vs ->
  exists vs', Sensors.get_forecast_records_for_rest_of_today fd now = Some vs' /\
              sublist vs' vs.
Proof.
  apply mapM_filter_sublist; intros p Hp; apply andb_prop in Hp as [_ Hp]; exact Hp.
Qed.

Lemma records_rest_of_today_sublist_witness :
  exists vs', Sensors.get_forecast_records_for_rest_of_today Examples.series_with_gap 3000 = Some vs' /\
              sublist vs' [qc 1; qc 2; qc 3; qc 4].
Proof.
  apply (records_rest_of_today_sublist Examples.series_with_gap 3000); reflexivity.
Defined.


(** X8.  When all med values are non-negative, the energy sensors for the
    rest of today (solar and grid) never report more than the
    corresponding sensors for the whole of today. *)
Theorem energy_rest_of_today_le_today (fd : Aggregation.ForecastData) (now : Z) :
  Forall (fun p => forall v, Sensors.med_value fd p = Some v -> (0 <= v)%Qc)
    (Aggregation.forecast fd) ->
  (forall a, Sensors.solar_energy_today fd now = Some a ->
   exists b, Sensors.solar_energy_rest_of_today fd now = Some b /\ b <= a) /\
  (forall a, Sensors.grid_energy_today fd now = Some a ->
   exists b, Sensors.grid_energy_rest_of_today fd now = Some b /\ b <= a).
Proof.
  intros Hnn.
  assert (Hkey : forall vs, Sensors.get_forecast_records_for_today fd now = Some vs ->
            exists vs', Sensors.get_forecast_records_for_rest_of_today fd now = Some vs' /\
                        (Sensors.py_sum vs' <= Sensors.py_sum vs)%Qc).
  { intros vs Hvs.
    destruct (mapM_filter_sublist fd _
                (fun p => Z.ltb now (Aggregation.p_time p) &&
                          Z.eqb (Sensors.date_of (Aggregation.p_time p)) (Sensors.date_of now))
                (Aggregation.forecast fd) vs
                ltac:(intros p Hp; apply andb_prop in Hp as [_ Hp]; exact Hp) Hvs)
      as (vs' & Hvs' & Hsub).
    exists vs'; split; [exact Hvs'|].
    apply py_sum_sublist; [exact Hsub|].
    eapply mapM_Forall_values; [exact Hvs | apply Forall_List_filter, Hnn]. }
  unfold Sensors.solar_energy_today, Sensors.solar_energy_rest_of_today,
    Sensors.grid_energy_today, Sensors.grid_energy_rest_of_today.
  split; intros a Ha;
    destruct (Sensors.get_forecast_records_for_today fd now) as [vs|] eqn:Hvs;
    try discriminate Ha; simpl in Ha; injection Ha as <-;
    destruct (Hkey vs eq_refl) as (vs' & -> & Hle);
    simpl; eexists; split; try reflexivity;
    apply py_round_mono; try apply Qcdiv4_mono; exact Hle.
Qed.

Lemma energy_rest_of_today_le_today_witness :
  exists b, Sensors.solar_energy_rest_of_today Examples.series_with_gap 3000 = Some b /\ b <= 2.
Proof.
  apply (proj1 (energy_rest_of_today_le_today Examples.series_with_gap 3000
                  ltac:(repeat constructor; intros v Hv; vm_compute in Hv; injection Hv as <-;
                        vm_compute; discriminate)) 2).
  reflexivity.
Defined.


(** X6.  [get_nearest_forecast_record] returns the med value of the last point
    of the leading run of points not after [now] (ending at the first point
    after [now]), not the latest point before [now] in the whole series;
    it returns no record when that run is empty, and raises when that point
    has no med value. *)
Theorem nearest_record_leading_run (fd : Aggregation.ForecastData) (now : Z)
    (pre post : list Aggregation.fpoint) :
  Aggregation.forecast fd = pre ++ post ->
  Forall (fun p => Aggregation.p_time p <= now) pre ->
  match post with [] => True | q :: _ => now < Aggregation.p_time q end ->
  Sensors.get_nearest_forecast_record fd now =
  match last pre with
  | Some p => option_map Some (Sensors.med_value fd p)
  | None => Some None
  end.
Proof.
  intros Hfc Hpre Hpost; unfold Sensors.get_nearest_forecast_record.
  rewrite Hfc, last_past_point_split by assumption.
  destruct (last pre) as [p|]; [|reflexivity].
  simpl; destruct (Sensors.med_value fd p); reflexivity.
Qed.

Lemma nearest_record_leading_run_witness :
  Sensors.get_nearest_forecast_record Examples.unsorted_series 4000 = Some (Some (qc 2)).
Proof.
  rewrite (nearest_record_leading_run Examples.unsorted_series 4000
             [Examples.channel_point 0 1; Examples.channel_point 3600 2]
             [Examples.channel_point 7200 3; Examples.channel_point 1800 4]).
  - reflexivity.
  - reflexivity.
  - repeat constructor; simpl; lia.
  - simpl; lia.
Defined.


Section DailyGrouping.
Import Aggregation DailySummary DailyAux.

Lemma glookup_group_append (day d : Z) (x : Z * Qc) (g : list (Z * list (Z * Qc))) :
  glookup (group_append day x g) d =
  if Z.eqb d day then glookup g d ++ [x] else glookup g d.
Proof.
  unfold glookup; induction g as [|[d0 vs] g IH]; simpl.
  - destruct (Z.eqb day d) eqn:E1, (Z.eqb d day) eqn:E2; simpl; try reflexivity;
      apply Z.eqb_eq in E1 || apply Z.eqb_eq in E2; subst;
      rewrite Z.eqb_refl in *; discriminate.
  - destruct (Z.eqb d0 day) eqn:E0; simpl.
    + apply Z.eqb_eq in E0; subst d0.
      destruct (Z.eqb day d) eqn:E1, (Z.eqb d day) eqn:E2; simpl; try reflexivity;
        apply Z.eqb_eq in E1 || apply Z.eqb_eq in E2; subst;
        rewrite Z.eqb_refl in *; discriminate.
    + destruct (Z.eqb d0 d) eqn:E1; [|exact IH].
      apply Z.eqb_eq in E1; subst d0; rewrite E0; reflexivity.
Qed.

Lemma group_append_keys (day d : Z) (x : Z * Qc) (g : list (Z * list (Z * Qc))) :
  In d (map fst (group_append day x g)) <-> d = day \/ In d (map fst g).
Proof.
  induction g as [|[d0 vs] g IH]; simpl; [firstorder congruence|].
  destruct (Z.eqb d0 day) eqn:E; simpl.
  - apply Z.eqb_eq in E; subst; firstorder congruence.
  - rewrite IH; firstorder congruence.
Qed.

Lemma group_append_nodup (day : Z) (x : Z * Qc) (g : list (Z * list (Z * Qc))) :
  List.NoDup (map fst g) -> List.NoDup (map fst (group_append day x g)).
Proof.
  induction g as [|[d0 vs] g IH]; intros Hnd; simpl; [repeat constructor; auto|].
  inversion Hnd as [|? ? Hnin Hnd']; subst.
  destruct (Z.eqb d0 day) eqn:E; simpl; constructor; auto.
  rewrite group_append_keys; apply Z.eqb_neq in E; intros [->|H]; auto.
Qed.

Lemma group_append_nonempty (day : Z) (x : Z * Qc) (g : list (Z * list (Z * Qc))) :
  Forall (fun dv => dv.2 <> []) g -> Forall (fun dv => dv.2 <> []) (group_append day x g).
Proof.
  induction g as [|[d0 vs] g IH]; intros Hg; simpl.
  - repeat constructor; simpl; discriminate.
  - apply Forall_cons in Hg as [H0 Hg]; destruct (Z.eqb d0 day).
    + constructor; [simpl; destruct vs; discriminate | exact Hg].
    + constructor; [exact H0 | apply IH, Hg].
Qed.

Lemma group_fold_spec (fd : ForecastData) (l : list fpoint) (g : list (Z * list (Z * Qc))) :
  List.NoDup (map fst g) -> Forall (fun dv => dv.2 <> []) g ->
  List.NoDup (map fst (fold_left (group_step fd) l g)) /\
  Forall (fun dv => dv.2 <> []) (fold_left (group_step fd) l g) /\
  (forall d, glookup (fold_left (group_step fd) l g) d = glookup g d ++ day_entries fd l d) /\
  (forall d, In d (map fst (fold_left (group_step fd) l g)) <->
             In d (map fst g) \/ day_entries fd l d <> []).
Proof.
  revert g; induction l as [|p l IH]; intros g Hnd Hne; simpl.
  - split; [exact Hnd|]; split; [exact Hne|]; split.
    + intros d; rewrite app_nil_r; reflexivity.
    + intros d; split; [intros H; left; exact H | intros [H|H]; [exact H | congruence]].
  - destruct (IH (group_step fd g p)) as (Hnd' & Hne' & Hlk & Hkeys).
    { unfold group_step; destruct (Sensors.med_value fd p); [apply group_append_nodup|]; assumption. }
    { unfold group_step; destruct (Sensors.med_value fd p); [apply group_append_nonempty|]; assumption. }
    repeat split; try assumption.
    + intros d; rewrite Hlk; unfold day_entries; simpl; fold (day_entries fd l d).
      unfold group_step; destruct (Sensors.med_value fd p) as [v|]; simpl;
        [|destruct (Z.eqb _ d); reflexivity].
      rewrite glookup_group_append.
      destruct (Z.eqb d (Sensors.date_of (p_time p))) eqn:E1;
      destruct (Z.eqb (Sensors.date_of (p_time p)) d) eqn:E2; simpl;
        try (apply Z.eqb_eq in E1 || apply Z.eqb_eq in E2; subst;
             rewrite Z.eqb_refl in *; discriminate);
        [rewrite <- app_assoc | ]; reflexivity.
    + intros Hin; apply Hkeys in Hin as [Hin|Hin].
      * unfold group_step in Hin; destruct (Sensors.med_value fd p) as [v|] eqn:Hv;
          [|left; exact Hin].
        apply group_append_keys in Hin as [->|Hin]; [right|left; exact Hin].
        unfold day_entries; simpl; rewrite Z.eqb_refl; discriminate.
      * right; unfold day_entries in *; simpl.
        destruct (Z.eqb (Sensors.date_of (p_time p)) d); [|exact Hin].
        destruct (Sensors.med_value fd p); simpl; [discriminate | exact Hin].
    + intros Hor; apply Hkeys.
      destruct Hor as [Hin | Hne2].
      * left; unfold group_step; destruct (Sensors.med_value fd p);
          [apply group_append_keys; right|]; exact Hin.
      * unfold day_entries in Hne2; simpl in Hne2.
        destruct (Z.eqb (Sensors.date_of (p_time p)) d) eqn:E;
          [|right; exact Hne2].
        destruct (Sensors.med_value fd p) as [v|] eqn:Hv; simpl in Hne2; [|right; exact Hne2].
        left; unfold group_step; rewrite Hv; apply group_append_keys; left.
        apply Z.eqb_eq in E; symmetry; exact E.
Qed.

Lemma glookup_In (g : list (Z * list (Z * Qc))) (d : Z) (vs : list (Z * Qc)) :
  List.NoDup (map fst g) -> In (d, vs) g -> glookup g d = vs.
Proof.
  unfold glookup; induction g as [|[d0 vs0] g IH]; intros Hnd Hin; [destruct Hin|].
  inversion Hnd as [|? ? Hnin Hnd']; subst; simpl.
  destruct Hin as [Heq|Hin].
  - injection Heq as -> ->; rewrite Z.eqb_refl; reflexivity.
  - destruct (Z.eqb d0 d) eqn:E; [|apply IH; assumption].
    apply Z.eqb_eq in E; subst d0; exfalso; apply Hnin.
    apply in_map_iff; exists (d, vs); split; [reflexivity | exact Hin].
Qed.

Lemma day_entries_In (fd : ForecastData) (l : list fpoint) (d t : Z) (v : Qc) :
  In (t, v) (day_entries fd l d) <->
  exists p, In p l /\ Sensors.date_of (p_time p) = d /\ p_time p = t /\
            Sensors.med_value fd p = Some v.
Proof.
  induction l as [|p l IH]; unfold day_entries in *; simpl.
  - split; [intros []| intros (p & [] & _)].
  - destruct (Z.eqb (Sensors.date_of (p_time p)) d) eqn:E;
      [destruct (Sensors.med_value fd p) as [w|] eqn:Hw|]; simpl.
    + rewrite IH; split.
      * intros [Heq | (q & Hq & H1 & H2 & H3)].
        -- injection Heq as <- <-; exists p; apply Z.eqb_eq in E; auto.
        -- exists q; auto.
      * intros (q & [<- | Hq] & H1 & H2 & H3).
        -- left; rewrite H3 in Hw; injection Hw as ->; subst; reflexivity.
        -- right; exists q; auto.
    + rewrite IH; split.
      * intros (q & Hq & H1 & H2 & H3); exists q; auto.
      * intros (q & [<- | Hq] & H1 & H2 & H3); [congruence | exists q; auto].
    + rewrite IH; split.
      * intros (q & Hq & H1 & H2 & H3); exists q; auto.
      * intros (q & [<- | Hq] & H1 & H2 & H3);
          [apply Z.eqb_neq in E; congruence | exists q; auto].
Qed.

Lemma map_snd_day_entries (fd : ForecastData) (l : list fpoint) (d : Z) :
  map snd (day_entries fd l d) =
  omap (fun p => if Z.eqb (Sensors.date_of (p_time p)) d then Sensors.med_value fd p else None) l.
Proof.
  induction l as [|p l IH]; unfold day_entries in *; simpl; [reflexivity|].
  destruct (Z.eqb (Sensors.date_of (p_time p)) d); [|exact IH].
  destruct (Sensors.med_value fd p); simpl; [f_equal|]; exact IH.
Qed.

Lemma day_entries_nonempty (fd : ForecastData) (l : list fpoint) (d : Z) :
  day_entries fd l d <> [] <->
  exists p, In p l /\ Sensors.date_of (p_time p) = d /\ is_Some (Sensors.med_value fd p).
Proof.
  split.
  - destruct (day_entries fd l d) as [|[t v] r] eqn:E; [congruence|]; intros _.
    destruct (proj1 (day_entries_In fd l d t v)) as (p & Hp & H1 & _ & H3);
      [rewrite E; left; reflexivity|].
    exists p; split; [exact Hp | split; [exact H1 | eexists; exact H3]].
  - intros (p & Hp & H1 & [v Hv]) E.
    pose proof (proj2 (day_entries_In fd l d (p_time p) v)) as Hin.
    rewrite E in Hin; apply Hin; exists p; auto.
Qed.

Lemma summarize_some (d : Z) (vs : list (Z * Qc)) :
  vs <> [] -> exists s, summarize d vs = Some s /\ date s = d.
Proof. destruct vs; [congruence|]; intros _; eexists; split; reflexivity. Qed.

Lemma summaries_dates (g : list (Z * list (Z * Qc))) :
  Forall (fun dv => dv.2 <> []) g ->
  map date (omap (fun dv => summarize dv.1 dv.2) g) = map fst g.
Proof.
  induction g as [|[d vs] g IH]; intros Hg; [reflexivity|].
  apply Forall_cons in Hg as [H0 Hg]; simpl in H0 |- *.
  destruct (summarize_some d vs H0) as (s & -> & Hd); simpl; rewrite Hd.
  f_equal; apply IH, Hg.
Qed.

Lemma group_by_day_spec (fd : ForecastData) :
  List.NoDup (map fst (group_by_day fd)) /\
  Forall (fun dv => dv.2 <> []) (group_by_day fd) /\
  (forall d, glookup (group_by_day fd) d = day_entries fd (forecast fd) d) /\
  (forall d, In d (map fst (group_by_day fd)) <-> day_entries fd (forecast fd) d <> []).
Proof.
  destruct (group_fold_spec fd (forecast fd) [] ltac:(constructor) ltac:(constructor))
    as (H1 & H2 & H3 & H4).
  split; [exact H1|]; split; [exact H2|]; split; [exact H3|].
  intros d; rewrite H4; simpl; tauto.
Qed.
End DailyGrouping.

Lemma min_entry_spec (best : Z * Qc) (l : list (Z * Qc)) :
  In (DailySummary.min_entry best l) (best :: l) /\
  Forall (fun y => (DailySummary.min_entry best l).2 <= y.2)%Qc (best :: l).
Proof.
  revert best; induction l as [|x l IH]; intros best; simpl.
  - split; [left; reflexivity | repeat constructor; apply Qcle_refl].
  - destruct (IH (if Qc_ltb x.2 best.2 then x else best)) as [Hin Hall].
    unfold Qc_ltb in *; destruct (Qclt_le_dec x.2 best.2) as [Hlt|Hge].
    + split; [destruct Hin as [<-|Hin]; auto|].
      apply Forall_cons in Hall as [Hx Hall].
      constructor; [eapply Qcle_trans; [exact Hx | apply Qclt_le_weak, Hlt]|].
      constructor; assumption.
    + split; [destruct Hin as [<-|Hin]; auto|].
      apply Forall_cons in Hall as [Hb Hall].
      constructor; [exact Hb|]; constructor; [eapply Qcle_trans; [exact Hb | exact Hge] | exact Hall].
Qed.

Lemma max_entry_spec (best : Z * Qc) (l : list (Z * Qc)) :
  In (DailySummary.max_entry best l) (best :: l) /\
  Forall (fun y => y.2 <= (DailySummary.max_entry best l).2)%Qc (best :: l).
Proof.
  revert best; induction l as [|x l IH]; intros best; simpl.
  - split; [left; reflexivity | repeat constructor; apply Qcle_refl].
  - destruct (IH (if Qc_ltb best.2 x.2 then x else best)) as [Hin Hall].
    unfold Qc_ltb in *; destruct (Qclt_le_dec best.2 x.2) as [Hlt|Hge].
    + split; [destruct Hin as [<-|Hin]; auto|].
      apply Forall_cons in Hall as [Hx Hall].
      constructor; [eapply Qcle_trans; [apply Qclt_le_weak, Hlt | exact Hx]|].
      constructor; assumption.
    + split; [destruct Hin as [<-|Hin]; auto|].
      apply Forall_cons in Hall as [Hb Hall].
      constructor; [exact Hb|]; constructor; [eapply Qcle_trans; [exact Hge | exact Hb] | exact Hall].
Qed.

(** What one summary records about the entries of its day. *)
Lemma summarize_spec (d : Z) (vs : list (Z * Qc)) (s : DailySummary.ForecastDailySummary) :
  DailySummary.summarize d vs = Some s ->
  DailySummary.date s = d /\
  DailySummary.med_sum s = fsum (map snd vs) /\
  DailySummary.med_avg s = fl (DailySummary.med_sum s / natQ (length vs))%Qc /\
  In (DailySummary.med_min_time s, DailySummary.med_min s) vs /\
  In (DailySummary.med_max_time s, DailySummary.med_max s) vs /\
  Forall (fun y => DailySummary.med_min s <= y.2 <= DailySummary.med_max s)%Qc vs.
Proof.
  destruct vs as [|x rest]; [discriminate|]; simpl; intros Hs; injection Hs as <-; simpl.
  destruct (min_entry_spec x rest) as [Hmin_in Hmin].
  destruct (max_entry_spec x rest) as [Hmax_in Hmax].
  split; [reflexivity|]; split; [reflexivity|]; split; [reflexivity|].
  split; [destruct (DailySummary.min_entry x rest); exact Hmin_in|].
  split; [destruct (DailySummary.max_entry x rest); exact Hmax_in|].
  apply Forall_forall; intros y Hy; rewrite Forall_forall in Hmin, Hmax; split; auto.
Qed.

(** X9.  Every daily summary of [aggregate_daily_forecast] records as
    [med_sum] the float sum, in input order, of the med values of the
    points of its date, and as [med_avg] that sum divided by their number,
    rounded; its minimum and maximum (with their times) are med values of
    points of that date; and every med value of that date lies between
    them. *)
Theorem daily_summary_bounds (fd : Aggregation.ForecastData) (today : Z)
    (s : DailySummary.ForecastDailySummary) :
  In s (DailySummary.aggregate_daily_forecast fd today).1 ->
  DailySummary.med_sum s = fsum (DailyAux.day_values fd (DailySummary.date s)) /\
  DailySummary.med_avg s =
    fl (DailySummary.med_sum s / natQ (length (DailyAux.day_values fd (DailySummary.date s))))%Qc /\
  (exists p, In p (Aggregation.forecast fd) /\
     Sensors.date_of (Aggregation.p_time p) = DailySummary.date s /\
     Aggregation.p_time p = DailySummary.med_min_time s /\
     Sensors.med_value fd p = Some (DailySummary.med_min s)) /\
  (exists p, In p (Aggregation.forecast fd) /\
     Sensors.date_of (Aggregation.p_time p) = DailySummary.date s /\
     Aggregation.p_time p = DailySummary.med_max_time s /\
     Sensors.med_value fd p = Some (DailySummary.med_max s)) /\
  (forall p v, In p (Aggregation.forecast fd) ->
     Sensors.date_of (Aggregation.p_time p) = DailySummary.date s ->
     Sensors.med_value fd p = Some v ->
     (DailySummary.med_min s <= v <= DailySummary.med_max s)%Qc).
Proof.
  intros Hs; simpl in Hs.
  apply list_elem_of_In, list_elem_of_omap in Hs as ([d vs] & Hdv & Hsum); simpl in Hsum.
  apply list_elem_of_In in Hdv.
  destruct (group_by_day_spec fd) as (Hnd & _ & Hlk & _).
  pose proof (glookup_In _ _ _ Hnd Hdv) as Hvs; rewrite Hlk in Hvs; subst vs.
  destruct (summarize_spec _ _ _ Hsum) as (Hd & Hsm & Havg & Hmin & Hmax & Hall).
  subst d; unfold DailyAux.day_values; rewrite <- map_snd_day_entries, length_map.
  split; [exact Hsm|]; split; [exact Havg|].
  split; [apply day_entries_In in Hmin; exact Hmin|].
  split; [apply day_entries_In in Hmax; exact Hmax|].
  intros p v Hp Hd Hv.
  rewrite Forall_forall in Hall.
  apply (Hall (Aggregation.p_time p, v)), list_elem_of_In, day_entries_In.
  exists p; auto.
Qed.

Lemma daily_summary_bounds_witness :
  exists s, In s (DailySummary.aggregate_daily_forecast Examples.series_with_gap 0).1 /\
    DailySummary.med_sum s = fsum (DailyAux.day_values Examples.series_with_gap (DailySummary.date s)).
Proof.
  eexists; split; [simpl; left; reflexivity|].
  refine (proj1 (daily_summary_bounds Examples.series_with_gap 0 _ _)).
  simpl; left; reflexivity.
Defined.

(** X10.  [aggregate_daily_forecast] produces at most one summary per date,
    and a summary for a date exactly when some point of that date has a med
    value. *)
Theorem daily_summary_one_per_day (fd : Aggregation.ForecastData) (today : Z) :
  NoDup (map DailySummary.date (DailySummary.aggregate_daily_forecast fd today).1) /\
  (forall d, (exists s, In s (DailySummary.aggregate_daily_forecast fd today).1 /\
                        DailySummary.date s = d) <->
             (exists p, In p (Aggregation.forecast fd) /\
                        Sensors.date_of (Aggregation.p_time p) = d /\
                        is_Some (Sensors.med_value fd p))).
Proof.
  destruct (group_by_day_spec fd) as (Hnd & Hne & _ & Hkeys).
  simpl; split.
  - rewrite summaries_dates by exact Hne; apply NoDup_ListNoDup, Hnd.
  - intros d; rewrite <- day_entries_nonempty, <- Hkeys.
    pose proof (summaries_dates _ Hne) as Hd; simpl in Hd; rewrite <- Hd, in_map_iff.
    split; intros (s & H1 & H2); exists s; split; assumption.
Qed.


Lemma start_sim_spec (now : Z) :
  start_sim now mod 3600 = 0 /\ now <= start_sim now < now + 3600 /\
  (start_sim now = now <-> now mod 3600 = 0).
Proof.
  unfold start_sim, floor_hour.
  pose proof (Z.mod_pos_bound now 3600 ltac:(lia)) as Hb.
  destruct (Z.eqb now (now - now mod 3600)) eqn:E.
  - apply Z.eqb_eq in E.
    assert (now mod 3600 = 0) as H0 by lia; rewrite H0, Z.sub_0_r; repeat split; lia.
  - apply Z.eqb_neq in E.
    assert (now mod 3600 <> 0) as H0 by lia.
    split; [|split; [lia | split; intros; lia]].
    replace (now - now mod 3600 + 3600) with (3600 * (now / 3600 + 1))
      by (rewrite (Z.div_mod now 3600) at 2 by lia; lia).
    rewrite Z.mul_comm; apply Z.mod_mul; lia.
Qed.

(** X13.  The simulations start at a full hour, at [now] or less than one
    hour after it, and at [now] exactly when [now] is a full hour. *)
Theorem start_sim_next_full_hour (now : Z) :
  start_sim now mod 3600 = 0 /\ now <= start_sim now < now + 3600 /\
  (start_sim now = now <-> now mod 3600 = 0).
Proof. apply start_sim_spec. Qed.

Lemma fold_insert_lookup {A} (es : list (Z * A)) (acc : gmap Z A) (h : Z) :
  fold_left (fun acc e => <[floor_hour e.1 := e.2]> acc) es acc !! h =
  match last (hour_entries h es) with Some e => Some e.2 | None => acc !! h end.
Proof.
  revert acc; induction es as [|e es IH]; intros acc; [reflexivity|].
  simpl; rewrite IH; unfold hour_entries; simpl.
  destruct (Z.eqb (floor_hour e.1) h) eqn:E.
  - apply Z.eqb_eq in E; rewrite last_cons.
    destruct (last (List.filter _ es)); [reflexivity|].
    rewrite E, lookup_insert_eq; reflexivity.
  - apply Z.eqb_neq in E.
    destruct (last (List.filter _ es)); [reflexivity|].
    rewrite lookup_insert_ne by exact E; reflexivity.
Qed.

Lemma solar_by_hour_lookup_gen (es : list (Z * Qc)) (acc : gmap Z (list Qc)) (h : Z) :
  fold_left (fun acc e =>
    let h := floor_hour e.1 in
    match acc !! h with
    | Some vs => <[h := vs ++ [e.2]]> acc
    | None => <[h := [e.2]]> acc
    end) es acc !! h =
  match acc !! h with
  | Some vs => Some (vs ++ map snd (hour_entries h es))
  | None => match map snd (hour_entries h es) with [] => None | vs => Some vs end
  end.
Proof.
  revert acc; induction es as [|e es IH]; intros acc.
  - simpl; destruct (acc !! h); [rewrite app_nil_r|]; reflexivity.
  - simpl; rewrite IH; unfold hour_entries; simpl.
    destruct (Z.eqb (floor_hour e.1) h) eqn:E.
    + apply Z.eqb_eq in E; subst h; simpl.
      destruct (acc !! floor_hour e.1) as [vs|];
        rewrite lookup_insert_eq; [rewrite <- app_assoc|]; reflexivity.
    + apply Z.eqb_neq in E.
      destruct (acc !! floor_hour e.1); rewrite lookup_insert_ne by exact E; reflexivity.
Qed.

Lemma Qc_leb_false (a b : Qc) : (b < a)%Qc -> Qc_leb a b = false.
Proof.
  unfold Qc_leb, Qc_ltb; intros H; destruct (Qclt_le_dec b a) as [_|H']; [reflexivity|].
  exfalso; apply (Qclt_not_le b a H H').
Qed.

Lemma grid_hour_idle (thr_min thr_max s : Qc) (c : cons_rec) (b : Grid.batt_rec) :
  ((thr_min < Grid.b_max b < thr_max)%Qc ->
     (Grid.grid_hour thr_min thr_max s c (Some b)).1.1 = 0%Qc) /\
  ((thr_min < Grid.b_med b < thr_max)%Qc ->
     (Grid.grid_hour thr_min thr_max s c (Some b)).1.2 = 0%Qc) /\
  ((thr_min < Grid.b_min b < thr_max)%Qc ->
     (Grid.grid_hour thr_min thr_max s c (Some b)).2 = 0%Qc).
Proof.
  unfold Grid.grid_hour; simpl.
  split; [|split]; intros [Hlo Hhi];
    rewrite (Qc_leb_false thr_max), (Qc_leb_false _ thr_min) by assumption;
    rewrite !andb_false_r; reflexivity.
Qed.

(** X16.  In the hourly loop of the grid simulator, whatever the SOC
    thresholds [thr_min] and [thr_max] (the configured ones or their
    defaults), a scenario whose battery reading for the hour lies strictly
    between them exchanges nothing with the grid. *)
Theorem grid_idle_between_thresholds (thr_min thr_max : Qc) (sh : gmap Z Qc)
    (cb : gmap Z cons_rec) (bb : gmap Z Grid.batt_rec) (fuel : nat) (sim_time end_t : Z) :
  Forall (fun p => forall b, bb !! Grid.g_time p = Some b ->
      ((thr_min < Grid.b_max b < thr_max)%Qc -> Grid.g_min p = 0%Qc) /\
      ((thr_min < Grid.b_med b < thr_max)%Qc -> Grid.g_med p = 0%Qc) /\
      ((thr_min < Grid.b_min b < thr_max)%Qc -> Grid.g_max p = 0%Qc))
    (Grid.grid_loop thr_min thr_max sh cb bb fuel sim_time end_t).
Proof.
  eapply Forall_impl; [apply grid_loop_points|].
  intros p Hp b Hb; cbv beta in Hp; rewrite Hb in Hp.
  destruct (grid_hour_idle thr_min thr_max (solar_at sh (Grid.g_time p))
              (cons_at cb (Grid.g_time p)) b) as (H1 & H2 & H3).
  rewrite <- Hp in H1, H2, H3; simpl in H1, H2, H3; auto.
Qed.

(** X17.  The hourly solar value of an hour is the average of the powers of
    the entries of that hour, in input order; an hour with no entry has no
    value. *)
Theorem solar_hourly_average (entries : list (Z * Qc)) (h : Z) :
  solar_hourly entries !! h =
  match map snd (hour_entries h entries) with
  | [] => None
  | vs => Some (average vs)
  end.
Proof.
  unfold solar_hourly, solar_by_hour; rewrite lookup_fmap, solar_by_hour_lookup_gen.
  rewrite lookup_empty; destruct (map snd (hour_entries h entries)); reflexivity.
Qed.

(** X18.  In the hourly consumption and battery tables, an hour holds the
    last entry of that hour in input order, and nothing when the hour has
    no entry. *)
Theorem hourly_last_entry_wins (cons_forecast : list (Z * cons_rec))
    (batt_forecast : list (Z * Grid.batt_rec)) (h : Z) :
  cons_by_hour cons_forecast !! h = option_map snd (last (hour_entries h cons_forecast)) /\
  Grid.batt_by_hour batt_forecast !! h = option_map snd (last (hour_entries h batt_forecast)).
Proof.
  unfold cons_by_hour, Grid.batt_by_hour; rewrite !fold_insert_lookup, !lookup_empty.
  split; [destruct (last (hour_entries h cons_forecast)) | destruct (last (hour_entries h batt_forecast))];
    reflexivity.
Qed.


Section AggregationShape.
Import Aggregation AggregationAux.
Variables (aggregation_fn : string) (post_process_fn : option (Qc -> Qc))
          (fields : list (option string)) (interval : Z).

Lemma agg_loop_appends (pts : list fpoint) (cur : gmap string Qc) (start : option Z)
    (n : nat) (result : list apoint) :
  exists suffix,
    (agg_loop aggregation_fn post_process_fn fields interval pts cur start n result).2 =
      result ++ suffix /\ Forall (emitted aggregation_fn post_process_fn fields interval) suffix.
Proof.
  revert cur start n result; induction pts as [|p rest IH]; intros cur start n result.
  - exists []; rewrite app_nil_r; split; [reflexivity | constructor].
  - simpl; destruct (Z.ltb _ _).
    + apply IH.
    + destruct (IH (init_from_point fields p) (Some (p_time p)) 1%nat
                  (result ++ [emit aggregation_fn post_process_fn fields
                                (match start with Some s => s | None => p_time p end)
                                interval cur n]))
        as (suf & Heq & Hsuf).
      rewrite Heq, <- app_assoc; eexists; split; [reflexivity|].
      constructor; [do 3 eexists; reflexivity | exact Hsuf].
Qed.

Lemma process_last_appends (st : gmap string Qc * option Z * nat * list apoint) :
  exists suffix,
    process_last aggregation_fn post_process_fn fields interval st = st.2 ++ suffix /\
    Forall (emitted aggregation_fn post_process_fn fields interval) suffix.
Proof.
  destruct st as [[[cur start] n] result]; unfold process_last; simpl.
  destruct (negb _ && _)%bool; [destruct start as [s|]|].
  - eexists; split; [reflexivity|]; constructor; [do 3 eexists; reflexivity | constructor].
  - exists []; rewrite app_nil_r; split; [reflexivity | constructor].
  - exists []; rewrite app_nil_r; split; [reflexivity | constructor].
Qed.

Lemma agg_loop_length (pts : list fpoint) (cur : gmap string Qc) (start : option Z)
    (n : nat) (result : list apoint) :
  0 < interval ->
  let '(_, start', _, result') :=
    agg_loop aggregation_fn post_process_fn fields interval pts cur start n result in
  (length result' + started start' <= length result + length pts + started start)%nat.
Proof.
  intros Hi; revert cur start n result; induction pts as [|p rest IH]; intros cur start n result.
  - simpl; lia.
  - cbn [agg_loop].
    destruct start as [s|].
    + destruct (Z.ltb (p_time p - s) interval).
      * specialize (IH (add_point fields cur p) (Some s) (S n) result).
        destruct (agg_loop _ _ _ _ rest _ _ _ _) as [[[c' st'] n'] r'].
        simpl in *; lia.
      * specialize (IH (init_from_point fields p) (Some (p_time p)) 1%nat
                      (result ++ [emit aggregation_fn post_process_fn fields s interval cur n])).
        destruct (agg_loop _ _ _ _ rest _ _ _ _) as [[[c' st'] n'] r'].
        rewrite length_app in IH; simpl in *; lia.
    + replace (Z.ltb (p_time p - p_time p) interval) with true
        by (symmetry; apply Z.ltb_lt; lia).
      specialize (IH (add_point fields cur p) (Some (p_time p)) (S n) result).
      destruct (agg_loop _ _ _ _ rest _ _ _ _) as [[[c' st'] n'] r'].
      simpl in *; lia.
Qed.

Lemma process_last_length (st : gmap string Qc * option Z * nat * list apoint) :
  let '(_, start, _, result) := st in
  (length (process_last aggregation_fn post_process_fn fields interval st) <=
   length result + started start)%nat.
Proof.
  destruct st as [[[cur start] n] result]; unfold process_last.
  destruct (negb _ && _)%bool; [destruct start as [s|]|]; simpl;
    rewrite ?length_app; simpl; lia.
Qed.

Lemma finalize_empty (n : nat) :
  finalize aggregation_fn post_process_fn fields ∅ n = ∅.
Proof.
  unfold finalize.
  match goal with |- fold_left ?F _ _ = _ =>
    assert (Hf : forall l a, fold_left F l a = a) end.
  { intros l; induction l as [|f l IHl]; intros a; [reflexivity|].
    cbn [fold_left]; rewrite IHl; destruct f; cbv beta; [rewrite lookup_empty|]; reflexivity. }
  apply Hf.
Qed.
End AggregationShape.

Lemma mid_noon_mod (s i : Z) : Aggregation.mid_noon s i mod 86400 = 43200.
Proof.
  unfold Aggregation.mid_noon; rewrite Z.add_comm, Z.mod_add by lia; reflexivity.
Qed.

(** X19.  Every point returned by [aggregate_by_interval] is labelled at
    12:00 of some day. *)
Theorem aggregate_labels_at_noon (fd : Aggregation.ForecastData) (aggregation_fn : string)
    (post_process_fn : option (Qc -> Qc)) (interval : Z) (out : list Aggregation.apoint) :
  Aggregation.aggregate_by_interval fd aggregation_fn post_process_fn interval = Some out ->
  Forall (fun a => Aggregation.a_time a mod 86400 = 43200) out.
Proof.
  unfold Aggregation.aggregate_by_interval.
  destruct (negb _); [discriminate|].
  destruct (Aggregation.forecast fd) as [|p ps]; intros H; [injection H as <-; constructor|].
  destruct (process_last_appends aggregation_fn post_process_fn (Aggregation.value_fields fd)
              interval (Aggregation.agg_loop aggregation_fn post_process_fn
                          (Aggregation.value_fields fd) interval (p :: ps) ∅ None 0%nat []))
    as (suf2 & Heq2 & H2).
  destruct (agg_loop_appends aggregation_fn post_process_fn (Aggregation.value_fields fd)
              interval (p :: ps) ∅ None 0%nat []) as (suf1 & Heq1 & H1).
  rewrite Heq2, Heq1 in H; injection H as <-.
  simpl; apply Forall_app; split; (eapply Forall_impl; [eassumption|]);
    intros a (s & cur & n & ->); apply mid_noon_mod.
Qed.

Lemma aggregate_labels_at_noon_witness :
  exists out,
    Aggregation.aggregate_by_interval Examples.series_with_gap "sum" None 3600 = Some out /\
    Forall (fun a => Aggregation.a_time a mod 86400 = 43200) out.
Proof.
  eexists; split; [reflexivity|].
  apply (aggregate_labels_at_noon Examples.series_with_gap "sum" None 3600); reflexivity.
Defined.


(** X20.  With a positive interval and either aggregation function,
    ["sum"] or ["average"], [aggregate_by_interval] returns a list of no
    more points than the series has. *)
Theorem aggregate_never_more_points (fd : Aggregation.ForecastData) (aggregation_fn : string)
    (post_process_fn : option (Qc -> Qc)) (interval : Z) :
  (aggregation_fn = "sum" \/ aggregation_fn = "average")%string ->
  0 < interval ->
  exists out,
    Aggregation.aggregate_by_interval fd aggregation_fn post_process_fn interval = Some out /\
    (length out <= length (Aggregation.forecast fd))%nat.
Proof.
  intros Hfn Hi; unfold Aggregation.aggregate_by_interval.
  replace (negb _) with false by (destruct Hfn as [-> | ->]; reflexivity).
  destruct (Aggregation.forecast fd) as [|p ps]; [eexists; split; [reflexivity | simpl; lia]|].
  pose proof (agg_loop_length aggregation_fn post_process_fn (Aggregation.value_fields fd)
                interval (p :: ps) ∅ None 0%nat [] Hi) as H1.
  pose proof (process_last_length aggregation_fn post_process_fn (Aggregation.value_fields fd)
                interval (Aggregation.agg_loop aggregation_fn post_process_fn
                          (Aggregation.value_fields fd) interval (p :: ps) ∅ None 0%nat [])) as H2.
  eexists; split; [reflexivity|].
  destruct (Aggregation.agg_loop _ _ _ _ _ _ _ _ _) as [[[c' st'] n'] r'].
  simpl in *; lia.
Qed.

Lemma aggregate_never_more_points_witness :
  exists out,
    Aggregation.aggregate_by_interval Examples.series_with_gap "average" None 3600 = Some out /\
    (length out <= length (Aggregation.forecast Examples.series_with_gap))%nat.
Proof.
  apply (aggregate_never_more_points Examples.series_with_gap "average" None 3600);
    [right; reflexivity | lia].
Defined.



(** X21.  With an interval of zero or less and a valid aggregation function,
    [aggregate_by_interval] of a non-empty series starts with a point that
    carries no value: the first point already closes the (empty) interval
    it opened. *)
Theorem aggregate_nonpositive_interval_empty_head (fd : Aggregation.ForecastData)
    (aggregation_fn : string) (post_process_fn : option (Qc -> Qc)) (interval : Z)
    (p : Aggregation.fpoint) (ps : list Aggregation.fpoint) :
  interval <= 0 ->
  (aggregation_fn = "sum" \/ aggregation_fn = "average")%string ->
  Aggregation.forecast fd = p :: ps ->
  exists rest,
    Aggregation.aggregate_by_interval fd aggregation_fn post_process_fn interval =
    Some (Aggregation.APoint (Aggregation.mid_noon (Aggregation.p_time p) interval) ∅ :: rest).
Proof.
  intros Hi Hfn Hfd; unfold Aggregation.aggregate_by_interval.
  replace (negb _) with false by (destruct Hfn as [-> | ->]; reflexivity).
  rewrite Hfd; cbn [Aggregation.agg_loop].
  replace (Z.ltb (Aggregation.p_time p - Aggregation.p_time p) interval) with false
    by (symmetry; apply Z.ltb_ge; lia).
  match goal with |- context [Aggregation.process_last ?a ?b ?c ?d ?st] =>
    destruct (process_last_appends a b c d st) as (suf2 & -> & _) end.
  match goal with |- context [Aggregation.agg_loop ?a ?b ?c ?d ?l ?cur ?so ?n ?r] =>
    destruct (agg_loop_appends a b c d l cur so n r) as (suf1 & -> & _) end.
  unfold Aggregation.emit; rewrite finalize_empty.
  eexists; simpl; reflexivity.
Qed.

Lemma aggregate_nonpositive_interval_empty_head_witness :
  exists rest,
    Aggregation.aggregate_by_interval Examples.series_with_gap "average" None (-3600) =
    Some (Aggregation.APoint (Aggregation.mid_noon 0 (-3600)) ∅ :: rest).
Proof.
  apply (aggregate_nonpositive_interval_empty_head Examples.series_with_gap "average" None (-3600)
           (Examples.channel_point 0 1)
           [Examples.channel_point 1800 2; Examples.channel_point 4200 3;
            Examples.channel_point 7500 4]); [lia | right; reflexivity | reflexivity].
Defined.


